(** * MAVLinkProtocol: the inbound pipeline of src/comm/MAVLinkProtocol.cc

    A shallow embedding of [MAVLinkProtocol::receiveBytes],
    [MAVLinkProtocol::enableLogging] and the setters around them, with the
    signals the object emits collected in a trace.

    Conventions.
    - C++ [int] and [uint8_t] values are [Z]; a [uint8_t] cast is written
      [uint8_t x = x mod 256].
    - [lastIndex[256][256]] is a finite map from (sysid, compid) to the stored
      value; a pair that is absent holds the constructor's [-1].
    - The four counters are declared in MAVLinkProtocol.h, which is not part
      of the sources at hand; they are unbounded integers here.
    - What the file takes from the MAVLink C headers (constants, the byte
      parser, the heartbeat decoder, the serialiser) is a parameter,
      bundled in [BuildEnv].
    - What the outside world decides (the clock, the bytes an uninitialised
      stack buffer holds, how many bytes the device accepts, whether a file
      opens) is an explicit input.
    - [receiveMutex] serialises the calls; the model is sequential. *)

From stdpp Require Import base numbers gmap strings list.
From Stdlib Require Import ZArith QArith Lia.

Set Warnings "-clear-no-such-hyp".

Close Scope Q_scope.
Open Scope Z_scope.

(** ** Data *)

Definition uint8_t (x : Z) : Z := x mod 256.
Definition quint64 (x : Z) : Z := x mod 2 ^ 64.

Record LinkInterface := {
  getId : Z;
  isConnected : bool
}.

Record mavlink_message_t := {
  len : Z;
  seq : Z;
  sysid : Z;
  compid : Z;
  msgid : Z;
  payload : list Z
}.

Record mavlink_heartbeat_t := {
  hb_type : Z;
  autopilot : Z;
  mavlink_version : Z
}.

(** Every header field of a message is a [uint8_t] in the C struct. *)
Definition wf_message (m : mavlink_message_t) : Prop :=
  0 <= seq m <= 255 /\ 0 <= sysid m <= 255 /\ 0 <= compid m <= 255 /\
  0 <= msgid m <= 255.

(** Modelled from the spec: the vehicle registry ([UASManager], [UAS] and
    [QGCMAVLinkUASFactory] are not among the sources).  A handle records
    the system id, the link the heartbeat arrived on and the decoded
    heartbeat fields handed to [create]. *)
Record UAS := {
  uas_id : Z;
  uas_link : LinkInterface;
  uas_heartbeat : mavlink_heartbeat_t
}.

Record QFile := {
  fileName : string;
  isOpen : bool;
  written : list Z
}.

(** The texts handed to [protocolStatusMessage], one constructor per call
    site, with the arguments substituted into the text. *)
Inductive StatusText :=
| LoggingFailed (file : string)
| SystemIdConflict (id : Z)
| VersionMismatch (sys version qgc_version : Z)
| OpenLogfileFailed (file : string).

Definition title (t : StatusText) : string :=
  match t with
  | LoggingFailed _ => "MAVLink Logging failed"
  | SystemIdConflict _ => "SYSTEM ID CONFLICT!"
  | VersionMismatch _ _ _ =>
      "The MAVLink protocol version on the MAV and QGroundControl mismatch!"
  | OpenLogfileFailed _ => "Opening MAVLink logfile for writing failed"
  end.

(** The signals of the object, plus the one call into a collaborator whose
    order relative to the signals matters ([createUAS]). *)
Inductive Event :=
| protocolStatusMessage (text : StatusText)
| receiveLossChanged (sys : Z) (receiveLoss : Q)
| messageReceived (link : LinkInterface) (message : mavlink_message_t)
| loggingChanged (enabled : bool)
| versionCheckChanged (enabled : bool)
| heartbeatChanged (enabled : bool)
| createUAS_called (link : LinkInterface) (sys : Z) (heartbeat : mavlink_heartbeat_t).

(** What the MAVLink headers and the platform provide.  The parser keeps
    static state inside the library; a deterministic parser is a function
    of the (channel, byte) pairs fed to it so far (newest first), the
    channel and the new byte, and returns the decode state and the content
    of its message out-parameter. *)
Record BuildEnv := {
  MAVLINK_VERSION : Z;
  MAVLINK_MSG_ID_HEARTBEAT : Z;
  MAVLINK_MAX_PACKET_LEN : Z;
  size_t_bits : Z;
  mavlink_parse_char : list (Z * Z) -> Z -> Z -> Z * mavlink_message_t;
  mavlink_msg_heartbeat_decode : mavlink_message_t -> mavlink_heartbeat_t;
  mavlink_msg_to_send_buffer : mavlink_message_t -> list Z
}.

(** Inputs from the outside world for one decoded message. *)
Record Env := {
  groundTimeUsecs : Z;       (* QGC::groundTimeUsecs() *)
  stack_bytes : list Z;      (* what the uninitialised [buf] holds *)
  device_accepts : Z         (* bytes the device takes; negative: I/O error *)
}.

(** The object's members, followed by the two collaborators it reads and
    changes: the registry behind [UASManager::instance()] and the bytes fed
    to [mavlink_parse_char] so far. *)
Record State := {
  m_heartbeatsEnabled : bool;
  m_loggingEnabled : bool;
  m_logfile : option QFile;
  m_enable_version_check : bool;
  lastIndex : gmap (Z * Z) Z;
  totalReceiveCounter : Z;
  totalLossCounter : Z;
  currReceiveCounter : Z;
  currLossCounter : Z;
  versionMismatchIgnore : bool;
  systemId : Z;
  uasManager : gmap Z UAS;
  fed : list (Z * Z)
}.

Definition set_heartbeatsEnabled (v : bool) (s : State) : State :=
  {| m_heartbeatsEnabled := v;
     m_loggingEnabled := m_loggingEnabled s; m_logfile := m_logfile s;
     m_enable_version_check := m_enable_version_check s;
     lastIndex := lastIndex s;
     totalReceiveCounter := totalReceiveCounter s;
     totalLossCounter := totalLossCounter s;
     currReceiveCounter := currReceiveCounter s;
     currLossCounter := currLossCounter s;
     versionMismatchIgnore := versionMismatchIgnore s;
     systemId := systemId s; uasManager := uasManager s; fed := fed s |}.

Definition set_loggingEnabled (v : bool) (s : State) : State :=
  {| m_heartbeatsEnabled := m_heartbeatsEnabled s;
     m_loggingEnabled := v; m_logfile := m_logfile s;
     m_enable_version_check := m_enable_version_check s;
     lastIndex := lastIndex s;
     totalReceiveCounter := totalReceiveCounter s;
     totalLossCounter := totalLossCounter s;
     currReceiveCounter := currReceiveCounter s;
     currLossCounter := currLossCounter s;
     versionMismatchIgnore := versionMismatchIgnore s;
     systemId := systemId s; uasManager := uasManager s; fed := fed s |}.

Definition set_logfile (v : option QFile) (s : State) : State :=
  {| m_heartbeatsEnabled := m_heartbeatsEnabled s;
     m_loggingEnabled := m_loggingEnabled s; m_logfile := v;
     m_enable_version_check := m_enable_version_check s;
     lastIndex := lastIndex s;
     totalReceiveCounter := totalReceiveCounter s;
     totalLossCounter := totalLossCounter s;
     currReceiveCounter := currReceiveCounter s;
     currLossCounter := currLossCounter s;
     versionMismatchIgnore := versionMismatchIgnore s;
     systemId := systemId s; uasManager := uasManager s; fed := fed s |}.

Definition set_enable_version_check (v : bool) (s : State) : State :=
  {| m_heartbeatsEnabled := m_heartbeatsEnabled s;
     m_loggingEnabled := m_loggingEnabled s; m_logfile := m_logfile s;
     m_enable_version_check := v;
     lastIndex := lastIndex s;
     totalReceiveCounter := totalReceiveCounter s;
     totalLossCounter := totalLossCounter s;
     currReceiveCounter := currReceiveCounter s;
     currLossCounter := currLossCounter s;
     versionMismatchIgnore := versionMismatchIgnore s;
     systemId := systemId s; uasManager := uasManager s; fed := fed s |}.

(** The tracker's members are always written together. *)
Definition set_tracker (li : gmap (Z * Z) Z) (tr tl cr cl : Z) (s : State) : State :=
  {| m_heartbeatsEnabled := m_heartbeatsEnabled s;
     m_loggingEnabled := m_loggingEnabled s; m_logfile := m_logfile s;
     m_enable_version_check := m_enable_version_check s;
     lastIndex := li;
     totalReceiveCounter := tr;
     totalLossCounter := tl;
     currReceiveCounter := cr;
     currLossCounter := cl;
     versionMismatchIgnore := versionMismatchIgnore s;
     systemId := systemId s; uasManager := uasManager s; fed := fed s |}.

Definition set_versionMismatchIgnore (v : bool) (s : State) : State :=
  {| m_heartbeatsEnabled := m_heartbeatsEnabled s;
     m_loggingEnabled := m_loggingEnabled s; m_logfile := m_logfile s;
     m_enable_version_check := m_enable_version_check s;
     lastIndex := lastIndex s;
     totalReceiveCounter := totalReceiveCounter s;
     totalLossCounter := totalLossCounter s;
     currReceiveCounter := currReceiveCounter s;
     currLossCounter := currLossCounter s;
     versionMismatchIgnore := v;
     systemId := systemId s; uasManager := uasManager s; fed := fed s |}.

Definition set_systemId (v : Z) (s : State) : State :=
  {| m_heartbeatsEnabled := m_heartbeatsEnabled s;
     m_loggingEnabled := m_loggingEnabled s; m_logfile := m_logfile s;
     m_enable_version_check := m_enable_version_check s;
     lastIndex := lastIndex s;
     totalReceiveCounter := totalReceiveCounter s;
     totalLossCounter := totalLossCounter s;
     currReceiveCounter := currReceiveCounter s;
     currLossCounter := currLossCounter s;
     versionMismatchIgnore := versionMismatchIgnore s;
     systemId := v; uasManager := uasManager s; fed := fed s |}.

Definition set_uasManager (v : gmap Z UAS) (s : State) : State :=
  {| m_heartbeatsEnabled := m_heartbeatsEnabled s;
     m_loggingEnabled := m_loggingEnabled s; m_logfile := m_logfile s;
     m_enable_version_check := m_enable_version_check s;
     lastIndex := lastIndex s;
     totalReceiveCounter := totalReceiveCounter s;
     totalLossCounter := totalLossCounter s;
     currReceiveCounter := currReceiveCounter s;
     currLossCounter := currLossCounter s;
     versionMismatchIgnore := versionMismatchIgnore s;
     systemId := systemId s; uasManager := v; fed := fed s |}.

Definition set_fed (v : list (Z * Z)) (s : State) : State :=
  {| m_heartbeatsEnabled := m_heartbeatsEnabled s;
     m_loggingEnabled := m_loggingEnabled s; m_logfile := m_logfile s;
     m_enable_version_check := m_enable_version_check s;
     lastIndex := lastIndex s;
     totalReceiveCounter := totalReceiveCounter s;
     totalLossCounter := totalLossCounter s;
     currReceiveCounter := currReceiveCounter s;
     currLossCounter := currLossCounter s;
     versionMismatchIgnore := versionMismatchIgnore s;
     systemId := systemId s; uasManager := uasManager s; fed := v |}.

(** ** Collaborators *)

(** Modelled from the spec: [lookup(system_id) -> Option<VehicleHandle>] of
    the registry ([UASManager::getUASForId] is not among the sources). *)
Definition getUASForId (s : State) (sys : Z) : option UAS :=
  uasManager s !! sys.

(** Modelled from the spec: [create(link, system_id, heartbeat_fields) ->
    VehicleHandle] ([QGCMAVLinkUASFactory::createUAS] is not among the
    sources).  It always returns a handle and makes the vehicle known to
    the registry. *)
Definition createUAS (link : LinkInterface) (sys : Z)
    (heartbeat : mavlink_heartbeat_t) (s : State) : State * UAS :=
  let u := {| uas_id := sys; uas_link := link; uas_heartbeat := heartbeat |} in
  (set_uasManager (<[sys := u]> (uasManager s)) s, u).

(** [QIODevice::write]: -1 when the device is not open or on an I/O error,
    else the number of bytes taken, which are appended. *)
Definition QFile_write (f : QFile) (b : list Z) (accepts : Z) : QFile * Z :=
  if isOpen f then
    if accepts <? 0 then (f, -1)
    else
      let n := Z.min accepts (Z.of_nat (length b)) in
      ({| fileName := fileName f; isOpen := true;
          written := written f ++ take (Z.to_nat n) b |}, n)
  else (f, -1).

Definition QFile_close (f : QFile) : QFile :=
  {| fileName := fileName f; isOpen := false; written := written f |}.

Definition QFile_open (f : QFile) : QFile :=
  {| fileName := fileName f; isOpen := true; written := written f |}.

Definition QFile_new (name : string) : QFile :=
  {| fileName := name; isOpen := false; written := [] |}.

(** [written] is what this object has appended to the file it names; under
    a new name nothing has been appended yet. *)
Definition QFile_setFileName (name : string) (f : QFile) : QFile :=
  {| fileName := name; isOpen := isOpen f; written := [] |}.

(** ** enableLogging (lines 391-427)

    [open_ok] is what [m_logfile->open(WriteOnly | Append)] returns, should
    the call be made. *)
Definition enableLogging (enabled open_ok : bool) (s : State)
    : State * list Event :=
  let changed := negb (eqb enabled (m_loggingEnabled s)) in
  let '(s1, ev) :=
    if enabled then
      let sa :=
        match m_logfile s with
        | Some f => if isOpen f then set_logfile (Some (QFile_close f)) s else s
        | None => s
        end in
      match m_logfile sa with
      | Some f =>
          if open_ok then (set_logfile (Some (QFile_open f)) sa, [])
          else (set_loggingEnabled false sa,
                [protocolStatusMessage (OpenLogfileFailed (fileName f))])
      | None => (sa, [])
      end
    else
      match m_logfile s with
      | Some _ => (set_logfile None s, [])
      | None => (s, [])
      end in
  (set_loggingEnabled enabled s1,
   ev ++ (if changed then [loggingChanged enabled] else [])).

(** ** The logging sink (receiveBytes, lines 167-183) *)

Fixpoint le_bytes (n : nat) (v : Z) : list Z :=
  match n with
  | O => []
  | S n' => v mod 256 :: le_bytes n' (v / 256)
  end.

(** Copy [src] into [dst] at offset [off]; the C code never writes past
    the end of [buf] when the frame fits, and the model cuts the copy at
    the end of [dst]. *)
Definition blit (off : nat) (src dst : list Z) : list Z :=
  take off dst ++ take (length dst - off) src ++ drop (off + length src) dst.

(** A local array of [n] bytes that was not initialised. *)
Definition uninitialised (n : nat) (garbage : list Z) : list Z :=
  take n (garbage ++ replicate n 0).

Definition record_len (B : BuildEnv) : Z := MAVLINK_MAX_PACKET_LEN B + 8.

(** The [QByteArray b] built from all [len] bytes of [buf] and handed to
    [write]; [memcpy]
    of the [quint64] is that of a little-endian host. *)
Definition log_record (B : BuildEnv) (e : Env) (message : mavlink_message_t)
    : list Z :=
  let buf := uninitialised (Z.to_nat (record_len B)) (stack_bytes e) in
  let buf := blit 0 (le_bytes 8 (quint64 (groundTimeUsecs e))) buf in
  blit 8 (mavlink_msg_to_send_buffer B message) buf.

(** [m_logfile->write(b) < MAVLINK_MAX_PACKET_LEN+sizeof(quint64)]: the
    left side is a [qint64], the right side a [size_t]; with a 64-bit
    [size_t] the comparison is unsigned. *)
Definition write_short (B : BuildEnv) (ret : Z) : bool :=
  if 64 <=? size_t_bits B then ret mod 2 ^ 64 <? record_len B
  else ret <? record_len B.

Definition log_data (B : BuildEnv) (e : Env) (message : mavlink_message_t)
    (s : State) : State * list Event :=
  match m_loggingEnabled s, m_logfile s with
  | true, Some f =>
      let '(f', ret) := QFile_write f (log_record B e message) (device_accepts e) in
      let s1 := set_logfile (Some f') s in
      if write_short B ret then
        let '(s2, ev) := enableLogging false false s1 in
        (s2, protocolStatusMessage (LoggingFailed (fileName f)) :: ev)
      else (s1, [])
  | _, _ => (s, [])
  end.

(** ** The sequence tracker (receiveBytes, lines 236-295) *)

Definition lastIndex_at (s : State) (sys comp : Z) : Z :=
  default (-1) (lastIndex s !! (sys, comp)).

(** The if/else that moves a stored index one step, 255 wrapping to 0. *)
Definition advance (i : Z) : Z := if i =? 255 then 0 else i + 1.

(** The variables the while loop reads and writes. *)
Record Cursor := {
  idx : Z;
  totalLoss : Z;
  currLoss : Z;
  safeguard : Z
}.

Definition loop_cond (sq : Z) (c : Cursor) : bool :=
  negb (idx c =? sq) && (safeguard c <? 255).

Definition loop_body (c : Cursor) : Cursor :=
  {| idx := advance (idx c);
     totalLoss := totalLoss c + 1;
     currLoss := currLoss c + 1;
     safeguard := safeguard c + 1 |}.

Fixpoint while_loop (fuel : nat) (sq : Z) (c : Cursor) : Cursor :=
  match fuel with
  | O => c
  | S fuel' => if loop_cond sq c then while_loop fuel' sq (loop_body c) else c
  end.

(** Lines 250-274: the stored index moves one step, then the loop runs
    with [safeguard] starting at 0.  The loop leaves when [safeguard]
    reaches 255, so 255 rounds of fuel are enough ([while_loop_exits]). *)
Definition reconcile (last sq tl cl : Z) : Cursor :=
  while_loop 255 sq
    {| idx := advance last; totalLoss := tl; currLoss := cl; safeguard := 0 |}.

(** Lines 238-275. *)
Definition update_index (message : mavlink_message_t) (s : State) : State :=
  let tr := totalReceiveCounter s + 1 in
  let cr := currReceiveCounter s + 1 in
  let key := (sysid message, compid message) in
  let last := lastIndex_at s (sysid message) (compid message) in
  if last =? -1 then
    set_tracker (<[key := seq message]> (lastIndex s))
      tr (totalLossCounter s) cr (currLossCounter s) s
  else
    let c := reconcile last (seq message)
               (totalLossCounter s) (currLossCounter s) in
    set_tracker (<[key := idx c]> (lastIndex s))
      tr (totalLoss c) cr (currLoss c) s.

(** The value handed to [receiveLossChanged], as the exact quotient; the
    rounding of the [double] division and of the [float] product is not
    modelled. *)
Definition receiveLoss (lost received : Z) : Q :=
  (inject_Z lost / inject_Z (received + lost) * 100)%Q.

Definition report_due (lastLoss : Z) (s : State) : bool :=
  negb (lastLoss =? totalLossCounter s)
  || (Z.rem (totalReceiveCounter s) 64 =? 0).

(** Lines 284-295. *)
Definition report_loss (lastLoss : Z) (message : mavlink_message_t)
    (s : State) : State * list Event :=
  if report_due lastLoss s then
    (set_tracker (lastIndex s) (totalReceiveCounter s) (totalLossCounter s) 0 0 s,
     [receiveLossChanged (sysid message)
        (receiveLoss (currLossCounter s) (currReceiveCounter s))])
  else (s, []).

(** The body of [if (uas != NULL)]. *)
Definition count_message (link : LinkInterface) (message : mavlink_message_t)
    (s : State) : State * list Event :=
  let lastLoss := totalLossCounter s in
  let s1 := update_index message s in
  let '(s2, ev) := report_loss lastLoss message s1 in
  (s2, ev ++ [messageReceived link message]).

(** ** Admission and dispatch (receiveBytes, lines 185-301) *)

(** How the block [if (uas == NULL && message.msgid == HEARTBEAT)] is left:
    by [continue], or by falling through with the value of [uas]. *)
Inductive Admission :=
| Continue (s : State) (ev : list Event)
| FallThrough (s : State) (uas : option UAS) (ev : list Event).

(** Lines 200-203: the advisory about a sender that uses our own id. *)
Definition id_conflict (message : mavlink_message_t) (s : State) : list Event :=
  if sysid message =? systemId s
  then [protocolStatusMessage (SystemIdConflict (systemId s))] else [].

(** Line 217: the condition of the version gate. *)
Definition version_rejected (B : BuildEnv) (message : mavlink_message_t)
    (s : State) : bool :=
  m_enable_version_check s
  && negb (mavlink_version (mavlink_msg_heartbeat_decode B message)
           =? MAVLINK_VERSION B).

(** Lines 188-233. *)
Definition resolve_or_create (B : BuildEnv) (link : LinkInterface)
    (message : mavlink_message_t) (s : State) : Admission :=
  let uas := getUASForId s (sysid message) in
  if bool_decide (uas = None) && (msgid message =? MAVLINK_MSG_ID_HEARTBEAT B) then
    let ev0 := id_conflict message s in
    let heartbeat := mavlink_msg_heartbeat_decode B message in
    if version_rejected B message s then
      if negb (versionMismatchIgnore s) then
        Continue (set_versionMismatchIgnore true s)
          (ev0 ++ [protocolStatusMessage
                     (VersionMismatch (sysid message) (mavlink_version heartbeat)
                        (MAVLINK_VERSION B))])
      else Continue s ev0
    else
      let '(s1, u) := createUAS link (sysid message) heartbeat s in
      FallThrough s1 (Some u)
        (ev0 ++ [createUAS_called link (sysid message) heartbeat])
  else FallThrough s uas [].

(** Lines 185-301: what happens to one decoded message after the logging
    block. *)
Definition handle_message (B : BuildEnv) (link : LinkInterface)
    (message : mavlink_message_t) (s : State) : State * list Event :=
  match resolve_or_create B link message s with
  | Continue s1 ev => (s1, ev)
  | FallThrough s1 (Some _) ev =>
      let '(s2, ev2) := count_message link message s1 in (s2, ev ++ ev2)
  | FallThrough s1 None ev => (s1, ev)
  end.

(** The body of [if (decodeState == 1)]. *)
Definition on_decoded (B : BuildEnv) (e : Env) (link : LinkInterface)
    (message : mavlink_message_t) (s : State) : State * list Event :=
  let '(s1, ev1) := log_data B e message s in
  let '(s2, ev2) := handle_message B link message s1 in
  (s2, ev1 ++ ev2).

(** ** receiveBytes (lines 156-305)

    [env position] supplies the outside inputs for the byte at [position]. *)
Fixpoint receiveBytes_from (B : BuildEnv) (env : nat -> Env)
    (link : LinkInterface) (position : nat) (b : list Z) (s : State)
    : State * list Event :=
  match b with
  | [] => (s, [])
  | c :: b' =>
      let chan := uint8_t (getId link) in
      let '(decodeState, message) :=
        mavlink_parse_char B (fed s) chan (uint8_t c) in
      let s0 := set_fed ((chan, uint8_t c) :: fed s) s in
      let '(s1, ev1) :=
        if decodeState =? 1 then on_decoded B (env position) link message s0
        else (s0, []) in
      let '(s2, ev2) := receiveBytes_from B env link (S position) b' s1 in
      (s2, ev1 ++ ev2)
  end.

Definition receiveBytes (B : BuildEnv) (env : nat -> Env)
    (link : LinkInterface) (b : list Z) (s : State) : State * list Event :=
  receiveBytes_from B env link 0 b s.

(** ** Setters, settings and the constructor *)

Definition enableHeartbeats (enabled : bool) (s : State) : State * list Event :=
  (set_heartbeatsEnabled enabled s, [heartbeatChanged enabled]).

Definition enableVersionCheck (enabled : bool) (s : State) : State * list Event :=
  (set_enable_version_check enabled s, [versionCheckChanged enabled]).

Definition setSystemId (id : Z) (s : State) : State := set_systemId id s.

Definition setLogfileName (filename : string) (open_ok : bool) (s : State)
    : State * list Event :=
  let f :=
    match m_logfile s with
    | None => QFile_new filename
    | Some f => QFile_close f
    end in
  let s1 := set_logfile (Some (QFile_setFileName filename f)) s in
  enableLogging (m_loggingEnabled s1) open_ok s1.

(** The group QGC_MAVLINK_PROTOCOL of the stored settings; a key that is
    absent is [None]. *)
Record QSettings := {
  HEARTBEATS_ENABLED : option bool;
  VERION_CHECK_ENABLED : option bool;
  LOGFILE_NAME : option string;
  LOGGING_ENABLED : option bool;
  GCS_SYSTEM_ID : option Z
}.

Definition loadSettings (settings : QSettings) (open_ok : bool) (s : State)
    : State * list Event :=
  let '(s1, e1) :=
    enableHeartbeats
      (default (m_heartbeatsEnabled s) (HEARTBEATS_ENABLED settings)) s in
  let '(s2, e2) :=
    enableVersionCheck
      (default (m_enable_version_check s1) (VERION_CHECK_ENABLED settings)) s1 in
  let s3 :=
    match LOGFILE_NAME settings, m_logfile s2 with
    | Some name, None => set_logfile (Some (QFile_new name)) s2
    | _, _ => s2
    end in
  let '(s4, e4) :=
    enableLogging (default (m_loggingEnabled s3) (LOGGING_ENABLED settings))
      open_ok s3 in
  let temp := default (systemId s4) (GCS_SYSTEM_ID settings) in
  let s5 := if (0 <? temp) && (temp <? 256) then set_systemId temp s4 else s4 in
  (s5, e1 ++ e2 ++ e4).

(** Modelled from the spec: the default local system id, 255
    ([QGC::defaultSystemId] is declared in QGC.h, not among the sources). *)
Definition defaultSystemId : Z := 255.

(** The constructor (lines 40-68), in a world whose registry holds
    [registry]. *)
Definition MAVLinkProtocol_new (settings : QSettings) (open_ok : bool)
    (registry : gmap Z UAS) : State * list Event :=
  let s0 :=
    {| m_heartbeatsEnabled := false; m_loggingEnabled := false;
       m_logfile := None; m_enable_version_check := true;
       lastIndex := ∅;
       totalReceiveCounter := 0; totalLossCounter := 0;
       currReceiveCounter := 0; currLossCounter := 0;
       versionMismatchIgnore := false; systemId := defaultSystemId;
       uasManager := registry; fed := [] |} in
  let '(s1, e1) := loadSettings settings open_ok s0 in
  let s2 := set_tracker ∅ 0 0 0 0 s1 in
  (s2, e1 ++ [versionCheckChanged (m_enable_version_check s2)]).

(** ** Runs: the calls made on the object during its lifetime *)

Inductive Call :=
| call_receiveBytes (env : nat -> Env) (link : LinkInterface) (b : list Z)
| call_enableLogging (enabled open_ok : bool)
| call_setLogfileName (filename : string) (open_ok : bool)
| call_enableVersionCheck (enabled : bool)
| call_enableHeartbeats (enabled : bool)
| call_setSystemId (id : Z).

Definition step (B : BuildEnv) (c : Call) (s : State) : State * list Event :=
  match c with
  | call_receiveBytes env link b => receiveBytes B env link b s
  | call_enableLogging enabled open_ok => enableLogging enabled open_ok s
  | call_setLogfileName filename open_ok => setLogfileName filename open_ok s
  | call_enableVersionCheck enabled => enableVersionCheck enabled s
  | call_enableHeartbeats enabled => enableHeartbeats enabled s
  | call_setSystemId id => (setSystemId id s, [])
  end.

Fixpoint run (B : BuildEnv) (cs : list Call) (s : State) : State * list Event :=
  match cs with
  | [] => (s, [])
  | c :: cs' =>
      let '(s1, e1) := step B c s in
      let '(s2, e2) := run B cs' s1 in
      (s2, e1 ++ e2)
  end.

(** States the object can be in: built by the constructor, then any calls. *)
Inductive reachable (B : BuildEnv) : State -> Prop :=
| reachable_new settings open_ok registry :
    reachable B (MAVLinkProtocol_new settings open_ok registry).1
| reachable_step c s :
    reachable B s -> reachable B (step B c s).1.

(** ** A concrete build, to run the model on examples

    A small instance of [BuildEnv] in the manner of the MAVLink 0.9
    headers: a frame is the start marker, the payload length, the sequence
    number, the system id, the component id, the message id, the payload
    and two checksum bytes; the heartbeat payload is type, autopilot,
    version. *)
Module Sample.

Definition STX : Z := 85.

Definition crc_accumulate (crc data : Z) : Z :=
  let tmp := Z.lxor data (Z.land crc 255) in
  let tmp := Z.land (Z.lxor tmp (Z.shiftl tmp 4)) 255 in
  Z.land
    (Z.lxor (Z.lxor (Z.lxor (Z.shiftr crc 8) (Z.shiftl tmp 8)) (Z.shiftl tmp 3))
       (Z.shiftr tmp 4))
    65535.

Definition crc_calculate (bytes : list Z) : Z :=
  fold_left crc_accumulate bytes 65535.

Definition to_send_buffer (m : mavlink_message_t) : list Z :=
  let body := [len m; seq m; sysid m; compid m; msgid m] ++ payload m in
  let crc := crc_calculate body in
  STX :: body ++ [crc mod 256; crc / 256].

Definition decode_frame (buf : list Z) : option mavlink_message_t :=
  match buf with
  | _ :: l :: sq :: sys :: comp :: mid :: rest =>
      let m := {| len := l; seq := sq; sysid := sys; compid := comp;
                  msgid := mid; payload := take (Z.to_nat l) rest |} in
      if bool_decide (to_send_buffer m = buf) then Some m else None
  | _ => None
  end.

(** One byte into the pending partial frame. *)
Definition feed (pending : list Z) (c : Z) : list Z * option mavlink_message_t :=
  match pending with
  | [] => if c =? STX then ([c], None) else ([], None)
  | _ =>
      let buf := pending ++ [c] in
      match buf with
      | _ :: l :: _ =>
          if Z.of_nat (length buf) =? l + 8 then ([], decode_frame buf)
          else (buf, None)
      | _ => (buf, None)
      end
  end.

Definition empty_message : mavlink_message_t :=
  {| len := 0; seq := 0; sysid := 0; compid := 0; msgid := 0; payload := [] |}.

Definition parse_char (history : list (Z * Z)) (chan c : Z)
    : Z * mavlink_message_t :=
  let earlier :=
    rev (map snd (filter (fun p => bool_decide (p.1 = chan)) history)) in
  let pending := fold_left (fun p x => (feed p x).1) earlier [] in
  match (feed pending c).2 with
  | Some m => (1, m)
  | None => (0, empty_message)
  end.

Definition heartbeat_decode (m : mavlink_message_t) : mavlink_heartbeat_t :=
  {| hb_type := nth 0 (payload m) 0;
     autopilot := nth 1 (payload m) 0;
     mavlink_version := nth 2 (payload m) 0 |}.

Definition build : BuildEnv :=
  {| MAVLINK_VERSION := 2;
     MAVLINK_MSG_ID_HEARTBEAT := 0;
     MAVLINK_MAX_PACKET_LEN := 263;
     size_t_bits := 64;
     mavlink_parse_char := parse_char;
     mavlink_msg_heartbeat_decode := heartbeat_decode;
     mavlink_msg_to_send_buffer := to_send_buffer |}.

Definition heartbeat (sys comp sq version : Z) : mavlink_message_t :=
  {| len := 3; seq := sq; sysid := sys; compid := comp; msgid := 0;
     payload := [1; 0; version] |}.

(** A message that is not a heartbeat (message id 30, four payload bytes). *)
Definition attitude (sys comp sq : Z) : mavlink_message_t :=
  {| len := 4; seq := sq; sysid := sys; compid := comp; msgid := 30;
     payload := [1; 2; 3; 4] |}.

Definition link0 : LinkInterface := {| getId := 0; isConnected := true |}.
Definition link1 : LinkInterface := {| getId := 1; isConnected := true |}.

Definition no_settings : QSettings :=
  {| HEARTBEATS_ENABLED := None; VERION_CHECK_ENABLED := None;
     LOGFILE_NAME := None; LOGGING_ENABLED := None; GCS_SYSTEM_ID := None |}.

(** The object right after construction with no stored settings and an
    empty registry. *)
Definition fresh : State := (MAVLinkProtocol_new no_settings true ∅).1.

Definition quiet : Env :=
  {| groundTimeUsecs := 1000000; stack_bytes := []; device_accepts := 1000 |}.

(** A device that takes only the first 100 bytes of a write. *)
Definition disk_full : Env :=
  {| groundTimeUsecs := 1000000; stack_bytes := []; device_accepts := 100 |}.

(** Logging switched on, then a file name chosen that opens. *)
Definition logging : State :=
  (run build [call_enableLogging true true; call_setLogfileName "log" true]
     fresh).1.

(** A file name that does not open is chosen while logging is on, and the
    file object stays. *)
Definition unopened : State :=
  (run build [call_enableLogging true true; call_setLogfileName "log" false]
     fresh).1.

(** System 7 has sent a heartbeat with sequence number 2. *)
Definition seen : State :=
  (receiveBytes build (fun _ => quiet) link0
     (to_send_buffer (heartbeat 7 1 2 2)) fresh).1.

(** All of a frame but its last byte has been fed on link 0. *)
Definition awaiting_last (m : mavlink_message_t) (s : State) : State :=
  (receiveBytes build (fun _ => quiet) link0
     (removelast (to_send_buffer m)) s).1.

End Sample.


(** The version-mismatch warning among the events. *)
Definition is_version_warning (e : Event) : bool :=
  match e with
  | protocolStatusMessage (VersionMismatch _ _ _) => true
  | _ => false
  end.

Definition version_warnings (tr : list Event) : nat :=
  length (filter (fun e => is_version_warning e = true) tr).

(** The system ids for which the trace holds a [createUAS] call. *)
Fixpoint created (tr : list Event) : gset Z :=
  match tr with
  | [] => ∅
  | createUAS_called _ sys _ :: tr' => {[sys]} ∪ created tr'
  | _ :: tr' => created tr'
  end.

(** Every [messageReceived] of the trace is for a system id that is in
    [known] or was created earlier in the trace. *)
Fixpoint guarded (known : gset Z) (tr : list Event) : Prop :=
  match tr with
  | [] => True
  | createUAS_called _ sys _ :: tr' => guarded ({[sys]} ∪ known) tr'
  | messageReceived _ m :: tr' => sysid m ∈ known ∧ guarded known tr'
  | _ :: tr' => guarded known tr'
  end.

(** The distance still to go, when the cursor is at [i]. *)
Definition gap (i sq : Z) : Z := (sq - i) mod 256.

(** Events of the logging sink and of the setters: none of them is a
    dispatch, a loss report, a vehicle creation or a warning of the
    admission path. *)
Definition housekeeping (e : Event) : Prop :=
  match e with
  | protocolStatusMessage (LoggingFailed _)
  | protocolStatusMessage (OpenLogfileFailed _)
  | loggingChanged _ | versionCheckChanged _ | heartbeatChanged _ => True
  | _ => False
  end.

(** A transition that leaves the tracker, the warned latch and the registry
    alone and emits housekeeping events only. *)
Definition quiet_step (s : State) (ev : list Event) (s' : State) : Prop :=
  lastIndex s' = lastIndex s /\
  totalReceiveCounter s' = totalReceiveCounter s /\
  totalLossCounter s' = totalLossCounter s /\
  currReceiveCounter s' = currReceiveCounter s /\
  currLossCounter s' = currLossCounter s /\
  versionMismatchIgnore s' = versionMismatchIgnore s /\
  uasManager s' = uasManager s /\
  Forall housekeeping ev.

(** A relation between the state before, the events emitted and the state
    after that holds of doing nothing, is closed under running one
    transition after another, and holds of every quiet transition. *)
Record Compositional (R : State -> list Event -> State -> Prop) : Prop := {
  rel_nil : forall s, R s [] s;
  rel_app : forall s1 e1 s2 e2 s3,
    R s1 e1 s2 -> R s2 e2 s3 -> R s1 (e1 ++ e2) s3;
  rel_quiet : forall s ev s', quiet_step s ev s' -> R s ev s'
}.

(** The five ways [handle_message] treats a message, read off
    [resolve_or_create] and [handle_message]: state after and events emitted. *)
Inductive handled (B : BuildEnv) (link : LinkInterface)
    (m : mavlink_message_t) (s : State) : State -> list Event -> Prop :=
| handled_known u :
    getUASForId s (sysid m) = Some u ->
    handled B link m s (count_message link m s).1 (count_message link m s).2
| handled_stranger :
    getUASForId s (sysid m) = None ->
    msgid m <> MAVLINK_MSG_ID_HEARTBEAT B ->
    handled B link m s s []
| handled_rejected_first :
    getUASForId s (sysid m) = None ->
    msgid m = MAVLINK_MSG_ID_HEARTBEAT B ->
    version_rejected B m s = true ->
    versionMismatchIgnore s = false ->
    handled B link m s (set_versionMismatchIgnore true s)
      (id_conflict m s ++
       [protocolStatusMessage
          (VersionMismatch (sysid m)
             (mavlink_version (mavlink_msg_heartbeat_decode B m))
             (MAVLINK_VERSION B))])
| handled_rejected_again :
    getUASForId s (sysid m) = None ->
    msgid m = MAVLINK_MSG_ID_HEARTBEAT B ->
    version_rejected B m s = true ->
    versionMismatchIgnore s = true ->
    handled B link m s s (id_conflict m s)
| handled_admitted :
    getUASForId s (sysid m) = None ->
    msgid m = MAVLINK_MSG_ID_HEARTBEAT B ->
    version_rejected B m s = false ->
    let hb := mavlink_msg_heartbeat_decode B m in
    let s1 := (createUAS link (sysid m) hb s).1 in
    handled B link m s (count_message link m s1).1
      (id_conflict m s ++
       createUAS_called link (sysid m) hb :: (count_message link m s1).2).

(** The lifetime counters do not go down. *)
Definition counters_grow (s : State) (ev : list Event) (s' : State) : Prop :=
  totalReceiveCounter s <= totalReceiveCounter s' /\
  totalLossCounter s <= totalLossCounter s'.

(** The windowed counters are not negative, and carried from before to
    after. *)
Definition window_nonneg (s : State) : Prop :=
  0 <= currReceiveCounter s /\ 0 <= currLossCounter s.

Definition window_kept (s : State) (ev : list Event) (s' : State) : Prop :=
  window_nonneg s -> window_nonneg s'.


(** The registry grows by the vehicles created in the trace, and every
    dispatch of the trace is guarded by it. *)
Definition registry_guard (s : State) (ev : list Event) (s' : State) : Prop :=
  dom (uasManager s') = created ev ∪ dom (uasManager s) /\
  guarded (dom (uasManager s)) ev.

(** Two states that differ at most in the logging flag and the log file. *)
Definition same_but_logging (s s' : State) : Prop :=
  m_heartbeatsEnabled s' = m_heartbeatsEnabled s /\
  m_enable_version_check s' = m_enable_version_check s /\
  lastIndex s' = lastIndex s /\
  totalReceiveCounter s' = totalReceiveCounter s /\
  totalLossCounter s' = totalLossCounter s /\
  currReceiveCounter s' = currReceiveCounter s /\
  currLossCounter s' = currLossCounter s /\
  versionMismatchIgnore s' = versionMismatchIgnore s /\
  systemId s' = systemId s /\
  uasManager s' = uasManager s /\
  fed s' = fed s.

(** Events that neither create a vehicle, report a loss ratio nor dispatch. *)
Definition not_admitting (e : Event) : Prop :=
  match e with
  | messageReceived _ _ | createUAS_called _ _ _ | receiveLossChanged _ _ => False
  | _ => True
  end.

(** The number a little-endian byte string stands for. *)
Fixpoint le_value (l : list Z) : Z :=
  match l with
  | [] => 0
  | b :: l' => b + 256 * le_value l'
  end.

(** Every stored index is the constructor's -1 or an 8-bit value. *)
Definition lastIndex_in_range (s : State) : Prop :=
  forall sys comp, -1 <= lastIndex_at s sys comp <= 255.

Definition range_kept (s : State) (ev : list Event) (s' : State) : Prop :=
  lastIndex_in_range s -> lastIndex_in_range s'.

(** ** storeSettings (lines 96-113), the destructor (lines 115-127),
    getLogfileName (lines 136-146) *)

(** [settings] is the stored group before the call; only the keys the
    function sets are replaced. *)
Definition storeSettings (s : State) (settings : QSettings) : QSettings :=
  {| HEARTBEATS_ENABLED := Some (m_heartbeatsEnabled s);
     VERION_CHECK_ENABLED := Some (m_enable_version_check s);
     LOGFILE_NAME :=
       match m_logfile s with
       | Some f => Some (fileName f)
       | None => LOGFILE_NAME settings
       end;
     LOGGING_ENABLED := Some (m_loggingEnabled s);
     GCS_SYSTEM_ID := Some (systemId s) |}.

(** The destructor stores the settings and closes the log file before it
    deletes the file object: the settings left, and the file as it is
    left. *)
Definition MAVLinkProtocol_delete (s : State) (settings : QSettings)
    : QSettings * option QFile :=
  (storeSettings s settings,
   match m_logfile s with
   | Some f => Some (if isOpen f then QFile_close f else f)
   | None => None
   end).

(** [home] is [QDesktopServices::storageLocation(HomeLocation)]. *)
Definition getLogfileName (home : string) (s : State) : string :=
  match m_logfile s with
  | Some f => fileName f
  | None => home +:+ "/qgrouncontrol_packetlog.mavlink"
  end.

(** ** The outbound path (lines 316-382) *)

(** What the outbound path takes from the MAVLink and QGC headers:
    [mavlink_finalize_message_chan msg system_id component_id chan length],
    [mavlink_msg_heartbeat_pack system_id component_id type autopilot], the
    two enum values of the heartbeat and [QGC::defaultComponentId]. *)
Record OutboundEnv := {
  mavlink_finalize_message_chan :
    mavlink_message_t -> Z -> Z -> Z -> Z -> mavlink_message_t;
  mavlink_msg_heartbeat_pack : Z -> Z -> Z -> Z -> mavlink_message_t;
  OCU : Z;
  MAV_AUTOPILOT_GENERIC : Z;
  defaultComponentId : Z
}.

Definition getSystemId (s : State) : Z := systemId s.

Definition getComponentId (O : OutboundEnv) : Z := defaultComponentId O.

(** The message as it is serialised for [link]: the header is rewritten
    unless the link has id 0. *)
Definition for_link (O : OutboundEnv) (link : LinkInterface)
    (message : mavlink_message_t) (s : State) : mavlink_message_t :=
  if negb (getId link =? 0) then
    mavlink_finalize_message_chan O message (uint8_t (getSystemId s))
      (uint8_t (getComponentId O)) (uint8_t (getId link)) (len message)
  else message.

(** [sendMessage(LinkInterface*, mavlink_message_t)] (lines 353-367); the
    result is the calls of [writeBytes], each with the link and the bytes.
    [garbage] is what the uninitialised [buffer] holds. *)
Definition sendMessage_on (B : BuildEnv) (O : OutboundEnv) (garbage : list Z)
    (link : LinkInterface) (message : mavlink_message_t) (s : State)
    : list (LinkInterface * list Z) :=
  let buffer := uninitialised (Z.to_nat (MAVLINK_MAX_PACKET_LEN B)) garbage in
  let message := for_link O link message s in
  let frame := mavlink_msg_to_send_buffer B message in
  let buffer := blit 0 frame buffer in
  let len := length frame in
  if isConnected link then [(link, take len buffer)] else [].

(** [sendMessage(mavlink_message_t)] (lines 335-347) over the links that
    [LinkManager::getLinksForProtocol] returns; the message is passed by
    value, so each link starts from the same message. *)
Fixpoint sendMessage_from (B : BuildEnv) (O : OutboundEnv)
    (garbage : nat -> list Z) (i : nat) (links : list LinkInterface)
    (message : mavlink_message_t) (s : State) : list (LinkInterface * list Z) :=
  match links with
  | [] => []
  | link :: links' =>
      sendMessage_on B O (garbage i) link message s
      ++ sendMessage_from B O garbage (S i) links' message s
  end.

Definition sendMessage (B : BuildEnv) (O : OutboundEnv)
    (garbage : nat -> list Z) (links : list LinkInterface)
    (message : mavlink_message_t) (s : State) : list (LinkInterface * list Z) :=
  sendMessage_from B O garbage 0 links message s.

(** [sendHeartbeat] (lines 374-382). *)
Definition sendHeartbeat (B : BuildEnv) (O : OutboundEnv)
    (garbage : nat -> list Z) (links : list LinkInterface) (s : State)
    : list (LinkInterface * list Z) :=
  if m_heartbeatsEnabled s then
    let beat :=
      mavlink_msg_heartbeat_pack O (uint8_t (getSystemId s))
        (uint8_t (getComponentId O)) (OCU O) (MAV_AUTOPILOT_GENERIC O) in
    sendMessage B O garbage links beat s
  else [].

(** ** The heartbeat timer (lines 470-480) *)

Record HeartbeatTimer := {
  heartbeatRate : Z;
  interval : Z
}.

(** [setHeartbeatRate]: the interval is [1000/heartbeatRate] in [int]
    arithmetic; a rate of 0 divides by zero and gives no result. *)
Definition setHeartbeatRate (rate : Z) : option HeartbeatTimer :=
  if rate =? 0 then None
  else Some {| heartbeatRate := rate; interval := Z.quot 1000 rate |}.

Definition getHeartbeatRate (t : HeartbeatTimer) : Z := heartbeatRate t.

(** ** Reading a trace and an input *)

(** The messages handed to subscribers, with their links, in order. *)
Fixpoint dispatched (tr : list Event) : list (LinkInterface * mavlink_message_t) :=
  match tr with
  | [] => []
  | messageReceived l m :: tr' => (l, m) :: dispatched tr'
  | _ :: tr' => dispatched tr'
  end.

(** The system ids of the [createUAS] calls of a trace, in order. *)
Fixpoint created_list (tr : list Event) : list Z :=
  match tr with
  | [] => []
  | createUAS_called _ sys _ :: tr' => sys :: created_list tr'
  | _ :: tr' => created_list tr'
  end.

(** The messages the parser completes while the loop of [receiveBytes]
    feeds it [b] on channel [chan], after [history]. *)
Fixpoint decoded_from (B : BuildEnv) (chan : Z) (history : list (Z * Z))
    (b : list Z) : list mavlink_message_t :=
  match b with
  | [] => []
  | c :: b' =>
      let '(decodeState, message) :=
        mavlink_parse_char B history chan (uint8_t c) in
      (if decodeState =? 1 then [message] else [])
      ++ decoded_from B chan ((chan, uint8_t c) :: history) b'
  end.

(** Whether lines 188-236 leave [uas] set for the message: its vehicle is
    known, or it is a heartbeat that passes the version gate. *)
Definition accepted (B : BuildEnv) (m : mavlink_message_t) (s : State) : bool :=
  match getUASForId s (sysid m) with
  | Some _ => true
  | None =>
      (msgid m =? MAVLINK_MSG_ID_HEARTBEAT B) && negb (version_rejected B m s)
  end.

(** The members that admission and dispatch never write. *)
Definition same_settings (s s' : State) : Prop :=
  m_heartbeatsEnabled s' = m_heartbeatsEnabled s /\
  m_loggingEnabled s' = m_loggingEnabled s /\
  m_logfile s' = m_logfile s /\
  m_enable_version_check s' = m_enable_version_check s /\
  systemId s' = systemId s /\
  fed s' = fed s.

(** The lifetime received counter counts the dispatches. *)
Definition counts_dispatches (s : State) (ev : list Event) (s' : State) : Prop :=
  totalReceiveCounter s'
  = totalReceiveCounter s + Z.of_nat (length (dispatched ev)).

(** The ids named by the system-id-conflict warnings of a trace. *)
Fixpoint conflicts (tr : list Event) : list Z :=
  match tr with
  | [] => []
  | protocolStatusMessage (SystemIdConflict id) :: tr' => id :: conflicts tr'
  | _ :: tr' => conflicts tr'
  end.

(** Registered vehicles stay as they are, and the vehicles created in the
    trace are distinct, were unknown before and are known after. *)
Definition registry_grows (s : State) (ev : list Event) (s' : State) : Prop :=
  (forall k u, uasManager s !! k = Some u -> uasManager s' !! k = Some u) /\
  NoDup (created_list ev) /\
  (forall k, k ∈ created_list ev ->
     uasManager s !! k = None /\ is_Some (uasManager s' !! k)).

(** Between two messages no windowed loss is pending, and the windowed
    received counter is at most the lifetime one modulo 64. *)
Definition window_tight (s : State) : Prop :=
  currLossCounter s = 0 /\
  0 <= totalReceiveCounter s /\
  0 <= currReceiveCounter s <= totalReceiveCounter s mod 64.

Definition ratio_in_range (e : Event) : Prop :=
  match e with
  | receiveLossChanged _ ratio => (0 <= ratio)%Q /\ (ratio < 100)%Q
  | _ => True
  end.

Definition window_rel (s : State) (ev : list Event) (s' : State) : Prop :=
  window_tight s -> window_tight s' /\ Forall ratio_in_range ev.

(** The events [receiveBytes] can emit: none of the setters' signals, no
    open-failure warning, and [loggingChanged] only with [false]. *)
Definition inbound_event (e : Event) : Prop :=
  match e with
  | protocolStatusMessage (OpenLogfileFailed _)
  | loggingChanged true | versionCheckChanged _ | heartbeatChanged _ => False
  | _ => True
  end.

(** The settings as [receiveBytes] can leave them: the heartbeat and
    version-check flags and the system id as they were; logging as it was
    or off; the log file with its name and open state, or dropped. *)
Definition settings_kept (s s' : State) : Prop :=
  m_heartbeatsEnabled s' = m_heartbeatsEnabled s /\
  m_enable_version_check s' = m_enable_version_check s /\
  systemId s' = systemId s /\
  (m_loggingEnabled s' = m_loggingEnabled s \/ m_loggingEnabled s' = false) /\
  (m_logfile s' = None
   \/ (fileName <$> m_logfile s') = (fileName <$> m_logfile s)
      /\ (isOpen <$> m_logfile s') = (isOpen <$> m_logfile s)).

(** ** Where the report stage runs *)

(** The values with which lines 284-295 run for a counted message: the
    value of [lastLoss], the message, and the state that lines 238-275
    leave. *)
Record ReportCall := {
  call_lastLoss : Z;
  call_message : mavlink_message_t;
  call_state : State
}.

(** Lines 284-295 on these values. *)
Definition report_of (c : ReportCall) : State * list Event :=
  report_loss (call_lastLoss c) (call_message c) (call_state c).

(** The report stage runs once for a message that is counted, as
    [handle_message] and [count_message] have it. *)
Definition report_calls_message (B : BuildEnv) (link : LinkInterface)
    (m : mavlink_message_t) (s : State) : list ReportCall :=
  match resolve_or_create B link m s with
  | FallThrough s1 (Some _) _ =>
      [{| call_lastLoss := totalLossCounter s1; call_message := m;
          call_state := update_index m s1 |}]
  | _ => []
  end.

(** As [on_decoded]: after the logging block. *)
Definition report_calls_decoded (B : BuildEnv) (e : Env) (link : LinkInterface)
    (m : mavlink_message_t) (s : State) : list ReportCall :=
  report_calls_message B link m (log_data B e m s).1.

(** As [receiveBytes_from]: for every byte that completes a message, on
    the state that already holds the byte in [fed], and on with the state
    that [on_decoded] leaves. *)
Fixpoint report_calls_from (B : BuildEnv) (env : nat -> Env)
    (link : LinkInterface) (position : nat) (b : list Z) (s : State)
    : list ReportCall :=
  match b with
  | [] => []
  | c :: b' =>
      let chan := uint8_t (getId link) in
      let '(decodeState, message) :=
        mavlink_parse_char B (fed s) chan (uint8_t c) in
      let s0 := set_fed ((chan, uint8_t c) :: fed s) s in
      if decodeState =? 1 then
        report_calls_decoded B (env position) link message s0
        ++ report_calls_from B env link (S position) b'
             (on_decoded B (env position) link message s0).1
      else report_calls_from B env link (S position) b' s0
  end.

(** As [run]: only [receiveBytes] reaches the report stage. *)
Fixpoint report_calls (B : BuildEnv) (cs : list Call) (s : State)
    : list ReportCall :=
  match cs with
  | [] => []
  | c :: cs' =>
      match c with
      | call_receiveBytes env link b => report_calls_from B env link 0 b s
      | _ => []
      end
      ++ report_calls B cs' (step B c s).1
  end.

(** The loss-ratio notifications of a trace, in order. *)
Fixpoint loss_reports (tr : list Event) : list Event :=
  match tr with
  | [] => []
  | receiveLossChanged sys ratio :: tr' =>
      receiveLossChanged sys ratio :: loss_reports tr'
  | _ :: tr' => loss_reports tr'
  end.

(** The report stage is reached from a state with no windowed loss
    pending and the windowed received counter within the lifetime one
    modulo 64, by lines 238-275. *)
Definition counted_in_window (c : ReportCall) : Prop :=
  exists s,
    window_tight s /\
    call_lastLoss c = totalLossCounter s /\
    call_state c = update_index (call_message c) s.

(** What C10 says of one run of the report stage: the windowed received
    counter has been incremented, no counter is negative, the denominator
    of the quotient is at least 1, and when a report is due it carries the
    quotient over these counters. *)
Definition denominator_positive (c : ReportCall) : Prop :=
  let s1 := call_state c in
  1 <= currReceiveCounter s1 /\ 0 <= currLossCounter s1 /\
  1 <= currReceiveCounter s1 + currLossCounter s1 /\
  ~ (inject_Z (currReceiveCounter s1 + currLossCounter s1) == 0)%Q /\
  (report_due (call_lastLoss c) s1 = true ->
   (report_of c).2
   = [receiveLossChanged (sysid (call_message c))
        (receiveLoss (currLossCounter s1) (currReceiveCounter s1))]).

(** The ratio one run of the report stage reports: that of the losses of
    this message over them plus the messages received since the last
    report, of which there are between 1 and 64; 0 when the report is due
    to the cadence alone. *)
Definition ratio_of_this_message (c : ReportCall) : Prop :=
  let s1 := call_state c in
  let losses := totalLossCounter s1 - call_lastLoss c in
  let received := currReceiveCounter s1 in
  1 <= received <= 64 /\ 0 <= losses /\ currLossCounter s1 = losses /\
  (forall sys ratio, receiveLossChanged sys ratio ∈ (report_of c).2 ->
     sys = sysid (call_message c) /\
     (ratio == inject_Z losses / (inject_Z losses + inject_Z received) * 100)%Q /\
     (losses = 0 -> (ratio == 0)%Q /\ (64 | totalReceiveCounter s1))).

(** * Properties *)

(** ** The reconciliation loop *)

Lemma advance_range i : 0 <= i <= 255 -> 0 <= advance i <= 255.
Proof. unfold advance. destruct (Z.eqb_spec i 255); lia. Qed.

Lemma advance_mod i : 0 <= i <= 255 -> advance i = (i + 1) mod 256.
Proof.
  intros Hi. unfold advance. destruct (Z.eqb_spec i 255) as [->|Hne].
  - reflexivity.
  - rewrite Z.mod_small; lia.
Qed.

Lemma gap_range i sq : 0 <= gap i sq <= 255.
Proof. unfold gap. pose proof (Z.mod_pos_bound (sq - i) 256). lia. Qed.

Lemma gap_zero i sq :
  0 <= i <= 255 -> 0 <= sq <= 255 -> gap i sq = 0 -> i = sq.
Proof.
  unfold gap. intros Hi Hs H.
  apply Z.mod_divide in H; [|lia]. destruct H as [k Hk]. lia.
Qed.

Lemma gap_advance i sq :
  0 <= i <= 255 -> 0 <= sq <= 255 -> i <> sq ->
  gap (advance i) sq = gap i sq - 1.
Proof.
  intros Hi Hs Hne. unfold gap, advance.
  destruct (Z.eqb_spec i 255) as [->|H255].
  - rewrite Z.sub_0_r, (Z.mod_small sq) by lia.
    replace (sq - 255) with (sq + 1 + -1 * 256) by lia.
    rewrite Z.mod_add by lia. rewrite Z.mod_small; lia.
  - destruct (Z_lt_le_dec sq i) as [Hlt|Hle].
    + replace (sq - (i + 1)) with (sq - i - 1 + 256 + -1 * 256) by lia.
      rewrite Z.mod_add by lia.
      replace (sq - i) with (sq - i + 256 + -1 * 256) by lia.
      rewrite Z.mod_add by lia. rewrite !Z.mod_small; lia.
    + rewrite !Z.mod_small; lia.
Qed.

(** With enough fuel and enough room under the safeguard, the loop walks
    the cursor to the observed sequence number, one loss per step. *)
Lemma while_loop_reaches fuel : forall sq i tl cl sg,
  0 <= i <= 255 -> 0 <= sq <= 255 ->
  gap i sq <= Z.of_nat fuel -> sg + gap i sq <= 255 ->
  while_loop fuel sq {| idx := i; totalLoss := tl; currLoss := cl; safeguard := sg |}
  = {| idx := sq; totalLoss := tl + gap i sq; currLoss := cl + gap i sq;
       safeguard := sg + gap i sq |}.
Proof.
  induction fuel as [|fuel IH]; intros sq i tl cl sg Hi Hs Hfuel Hsg.
  - pose proof (gap_range i sq) as Hg.
    assert (gap i sq = 0) as Hz by lia.
    rewrite Hz, !Z.add_0_r. simpl. f_equal. by apply gap_zero.
  - simpl. unfold loop_cond; simpl.
    destruct (Z.eqb_spec i sq) as [->|Hne]; simpl.
    + unfold gap. rewrite Z.sub_diag. simpl. by rewrite !Z.add_0_r.
    + pose proof (gap_range i sq) as Hg.
      assert (gap i sq <> 0) as Hnz by (intros H0; by apply Hne, gap_zero).
      destruct (Z.ltb_spec sg 255) as [_|Hge]; [|lia].
      unfold loop_body; simpl.
      pose proof (gap_advance i sq Hi Hs Hne) as Hadv.
      rewrite IH; [| by apply advance_range | done | lia | lia].
      rewrite Hadv. f_equal; lia.
Qed.

(** Whatever the cursor and the observed value, the loop counts its steps
    in [safeguard], one loss per step, and never more than the fuel. *)
Lemma while_loop_counts fuel : forall sq c,
  let c' := while_loop fuel sq c in
  safeguard c <= safeguard c' <= safeguard c + Z.of_nat fuel /\
  totalLoss c' - totalLoss c = safeguard c' - safeguard c /\
  currLoss c' - currLoss c = safeguard c' - safeguard c /\
  (safeguard c <= 255 -> safeguard c' <= 255).
Proof.
  induction fuel as [|fuel IH]; intros sq c; simpl.
  - lia.
  - destruct (loop_cond sq c) eqn:Hc.
    + specialize (IH sq (loop_body c)). simpl in IH.
      unfold loop_cond in Hc. apply andb_prop in Hc as [_ Hlt].
      apply Z.ltb_lt in Hlt. lia.
    + lia.
Qed.

(** The loop leaves because its condition fails, not because the fuel of
    the model ran out. *)
Lemma while_loop_exits fuel : forall sq c,
  255 <= safeguard c + Z.of_nat fuel ->
  loop_cond sq (while_loop fuel sq c) = false.
Proof.
  induction fuel as [|fuel IH]; intros sq c Hf; simpl.
  - unfold loop_cond. destruct (Z.ltb_spec (safeguard c) 255); [lia|].
    by rewrite andb_false_r.
  - destruct (loop_cond sq c) eqn:Hc; [|done].
    apply IH. simpl. lia.
Qed.

Lemma while_loop_fixpoint sq c :
  loop_cond sq c = false -> forall fuel, while_loop fuel sq c = c.
Proof. intros Hc [|fuel]; simpl; [done|by rewrite Hc]. Qed.

Lemma while_loop_more_fuel n : forall fuel sq c,
  loop_cond sq (while_loop fuel sq c) = false ->
  while_loop (fuel + n) sq c = while_loop fuel sq c.
Proof.
  intros fuel. induction fuel as [|fuel IH]; intros sq c H; simpl in *.
  - by apply while_loop_fixpoint.
  - destruct (loop_cond sq c) eqn:Hc; [by apply IH|done].
Qed.

Lemma reconcile_counts last sq tl cl :
  let c := reconcile last sq tl cl in
  0 <= safeguard c <= 255 /\
  totalLoss c = tl + safeguard c /\
  currLoss c = cl + safeguard c /\
  loop_cond sq c = false /\
  (forall n,
     while_loop (255 + n) sq
       {| idx := advance last; totalLoss := tl; currLoss := cl; safeguard := 0 |}
     = c).
Proof.
  intros c. subst c. unfold reconcile.
  pose proof (while_loop_counts 255 sq
    {| idx := advance last; totalLoss := tl; currLoss := cl; safeguard := 0 |})
    as H.
  cbv zeta in H. cbn [safeguard totalLoss currLoss] in H.
  change (Z.of_nat 255) with 255 in H.
  assert (loop_cond sq (while_loop 255 sq
    {| idx := advance last; totalLoss := tl; currLoss := cl; safeguard := 0 |})
    = false) as Hexit.
  { apply while_loop_exits. cbn [safeguard]. change (Z.of_nat 255) with 255. lia. }
  destruct H as (Hsg & Htl & Hcl & _).
  split; [lia|]. split; [lia|]. split; [lia|]. split; [exact Hexit|].
  intros n. apply while_loop_more_fuel. exact Hexit.
Qed.

Arguments while_loop : simpl never.
Arguments reconcile : simpl never.

Lemma gap_advance_from last sq :
  0 <= last <= 255 -> gap (advance last) sq = (sq - last - 1) mod 256.
Proof.
  intros Hl. unfold gap. rewrite advance_mod by done.
  rewrite Zminus_mod_idemp_r. f_equal. lia.
Qed.

Lemma reconcile_spec last sq tl cl :
  0 <= last <= 255 -> 0 <= sq <= 255 ->
  reconcile last sq tl cl
  = {| idx := sq; totalLoss := tl + (sq - last - 1) mod 256;
       currLoss := cl + (sq - last - 1) mod 256;
       safeguard := (sq - last - 1) mod 256 |}.
Proof.
  intros Hl Hs. unfold reconcile.
  pose proof (gap_range (advance last) sq) as Hg.
  rewrite while_loop_reaches; [| by apply advance_range | done | lia | lia].
  by rewrite gap_advance_from.
Qed.

(** ** What the tracker's two stages write *)

Lemma lastIndex_at_set_tracker li tr tl cr cl s sys comp :
  lastIndex_at (set_tracker li tr tl cr cl s) sys comp
  = default (-1) (li !! (sys, comp)).
Proof. reflexivity. Qed.

Lemma update_index_first m s :
  lastIndex_at s (sysid m) (compid m) = -1 ->
  update_index m s
  = set_tracker (<[(sysid m, compid m) := seq m]> (lastIndex s))
      (totalReceiveCounter s + 1) (totalLossCounter s)
      (currReceiveCounter s + 1) (currLossCounter s) s.
Proof. intros H. unfold update_index. by rewrite H. Qed.

Lemma update_index_seen m s :
  lastIndex_at s (sysid m) (compid m) <> -1 ->
  update_index m s
  = let c := reconcile (lastIndex_at s (sysid m) (compid m)) (seq m)
               (totalLossCounter s) (currLossCounter s) in
    set_tracker (<[(sysid m, compid m) := idx c]> (lastIndex s))
      (totalReceiveCounter s + 1) (totalLoss c)
      (currReceiveCounter s + 1) (currLoss c) s.
Proof.
  intros H. unfold update_index.
  destruct (Z.eqb_spec (lastIndex_at s (sysid m) (compid m)) (-1)); [lia|done].
Qed.

Lemma update_index_received m s :
  totalReceiveCounter (update_index m s) = totalReceiveCounter s + 1 /\
  currReceiveCounter (update_index m s) = currReceiveCounter s + 1.
Proof. unfold update_index. by destruct (_ =? _). Qed.

Lemma report_loss_keeps lastLoss m s :
  let s' := (report_loss lastLoss m s).1 in
  lastIndex s' = lastIndex s /\
  totalReceiveCounter s' = totalReceiveCounter s /\
  totalLossCounter s' = totalLossCounter s.
Proof. unfold report_loss. by destruct (report_due lastLoss s). Qed.

Lemma count_message_fst link m s :
  (count_message link m s).1
  = (report_loss (totalLossCounter s) m (update_index m s)).1.
Proof. unfold count_message. by destruct (report_loss _ _ _). Qed.

Lemma count_message_snd link m s :
  (count_message link m s).2
  = (report_loss (totalLossCounter s) m (update_index m s)).2
    ++ [messageReceived link m].
Proof. unfold count_message. by destruct (report_loss _ _ _). Qed.

(** ** C2 *)

(** C2. With a recorded last value [last] for the pair of the message,
    observing [seq] adds exactly [(seq - last - 1) mod 256] to the lifetime
    loss counter (and to the windowed one, before any report) and leaves
    [seq] as the pair's baseline; a jump of five records 4 losses, the next
    number records none, and 255 followed by 0 records none. *)
Theorem C2_observe_records_gap (link : LinkInterface) (s : State)
    (m : mavlink_message_t) (last : Z) :
  lastIndex_at s (sysid m) (compid m) = last ->
  0 <= last <= 255 -> 0 <= seq m <= 255 ->
  let losses := (seq m - last - 1) mod 256 in
  let s' := (count_message link m s).1 in
  totalLossCounter s' = totalLossCounter s + losses /\
  currLossCounter (update_index m s) = currLossCounter s + losses /\
  lastIndex_at s' (sysid m) (compid m) = seq m /\
  (seq m = (last + 5) mod 256 -> losses = 4) /\
  (seq m = (last + 1) mod 256 -> losses = 0) /\
  (last = 255 -> seq m = 0 -> losses = 0).
Proof.
  intros Hlast Hl Hs losses s'.
  assert (update_index m s
          = set_tracker (<[(sysid m, compid m) := seq m]> (lastIndex s))
              (totalReceiveCounter s + 1) (totalLossCounter s + losses)
              (currReceiveCounter s + 1) (currLossCounter s + losses) s) as Hu.
  { rewrite update_index_seen by lia. rewrite Hlast.
    by rewrite reconcile_spec. }
  subst s'. rewrite count_message_fst.
  destruct (report_loss_keeps (totalLossCounter s) m (update_index m s))
    as (Hli & _ & Htl).
  repeat split.
  - rewrite Htl, Hu. reflexivity.
  - rewrite Hu. reflexivity.
  - unfold lastIndex_at. rewrite Hli, Hu. simpl.
    by rewrite lookup_insert_eq.
  - intros Heq. subst losses. rewrite Heq. Z.div_mod_to_equations. lia.
  - intros Heq. subst losses. rewrite Heq. Z.div_mod_to_equations. lia.
  - intros -> Heq. subst losses. by rewrite Heq.
Qed.

(** ** C6 *)

(** C6. One observe step runs the loss-counting loop for at most 255
    rounds: the loop leaves by its own condition, more fuel changes
    nothing, every round counts one loss, and afterwards the pair's
    baseline is the observed sequence number. *)
Theorem C6_reconciliation_bounded (link : LinkInterface) (s : State)
    (m : mavlink_message_t) :
  -1 <= lastIndex_at s (sysid m) (compid m) <= 255 -> 0 <= seq m <= 255 ->
  let last := lastIndex_at s (sysid m) (compid m) in
  let c := reconcile last (seq m) (totalLossCounter s) (currLossCounter s) in
  let s' := (count_message link m s).1 in
  0 <= safeguard c <= 255 /\
  totalLoss c = totalLossCounter s + safeguard c /\
  loop_cond (seq m) c = false /\
  (forall n,
     while_loop (255 + n) (seq m)
       {| idx := advance last; totalLoss := totalLossCounter s;
          currLoss := currLossCounter s; safeguard := 0 |} = c) /\
  0 <= totalLossCounter s' - totalLossCounter s <= 255 /\
  lastIndex_at s' (sysid m) (compid m) = seq m.
Proof.
  intros Hlast Hs last c s'.
  destruct (reconcile_counts last (seq m) (totalLossCounter s) (currLossCounter s))
    as (Hsg & Htl & _ & Hexit & Hfuel).
  fold c in Hsg, Htl, Hexit, Hfuel.
  split; [done|]. split; [done|]. split; [done|]. split; [done|].
  subst s'. rewrite count_message_fst.
  destruct (report_loss_keeps (totalLossCounter s) m (update_index m s))
    as (Hli & _ & Htot).
  unfold lastIndex_at. rewrite Hli, Htot.
  destruct (Z.eq_dec last (-1)) as [Hfirst|Hseen].
  - rewrite update_index_first by done. cbn.
    rewrite lookup_insert_eq. cbn. split; [lia|done].
  - rewrite update_index_seen by done. cbv zeta.
    cbn [lastIndex totalLossCounter set_tracker].
    rewrite lookup_insert_eq. cbn [default]. fold last. fold c.
    split; [lia|]. subst c. unfold last. rewrite reconcile_spec; [done|lia|done].
Qed.

(** ** Quiet transitions, and lifting a relation from one message to a run *)

Lemma quiet_step_refl s : quiet_step s [] s.
Proof. unfold quiet_step. by repeat split. Qed.

Lemma quiet_step_app s1 e1 s2 e2 s3 :
  quiet_step s1 e1 s2 -> quiet_step s2 e2 s3 -> quiet_step s1 (e1 ++ e2) s3.
Proof.
  unfold quiet_step.
  intros (H1 & H2 & H3 & H4 & H5 & H6 & H7 & H8)
         (K1 & K2 & K3 & K4 & K5 & K6 & K7 & K8).
  repeat split; try congruence. by apply Forall_app.
Qed.

Lemma quiet_compositional : Compositional quiet_step.
Proof.
  split; [apply quiet_step_refl | apply quiet_step_app | done].
Qed.

Lemma enableLogging_quiet enabled open_ok s :
  quiet_step s (enableLogging enabled open_ok s).2
    (enableLogging enabled open_ok s).1.
Proof.
  unfold enableLogging, quiet_step.
  destruct enabled, (m_logfile s) as [f|] eqn:Hf; simpl.
  - destruct (isOpen f); simpl; rewrite ?Hf; destruct open_ok; simpl;
      repeat split; destruct (m_loggingEnabled s); simpl;
      repeat constructor.
  - rewrite Hf. simpl. repeat split.
    destruct (m_loggingEnabled s); simpl; repeat constructor.
  - repeat split. destruct (m_loggingEnabled s); simpl; repeat constructor.
  - repeat split. destruct (m_loggingEnabled s); simpl; repeat constructor.
Qed.

Lemma setLogfileName_quiet filename open_ok s :
  quiet_step s (setLogfileName filename open_ok s).2
    (setLogfileName filename open_ok s).1.
Proof.
  unfold setLogfileName.
  match goal with
  | |- quiet_step _ (enableLogging ?en ?ok ?s1).2 _ =>
      pose proof (enableLogging_quiet en ok s1) as H
  end.
  unfold quiet_step in *. simpl in *. exact H.
Qed.

Section Pipeline.
Context (B : BuildEnv).

Lemma log_data_quiet e m s :
  quiet_step s (log_data B e m s).2 (log_data B e m s).1.
Proof.
  unfold log_data.
  destruct (m_loggingEnabled s); [|apply quiet_step_refl].
  destruct (m_logfile s) as [f|]; [|apply quiet_step_refl].
  destruct (QFile_write f _ _) as [f' ret].
  destruct (write_short B ret); [|by unfold quiet_step].
  pose proof (enableLogging_quiet false false (set_logfile (Some f') s)) as H.
  destruct (enableLogging false false _) as [s2 ev]. simpl in *.
  unfold quiet_step in *. simpl in *.
  destruct H as (H1 & H2 & H3 & H4 & H5 & H6 & H7 & H8).
  repeat split; try done. by constructor.
Qed.

Lemma on_decoded_eq e link m s :
  on_decoded B e link m s
  = ((handle_message B link m (log_data B e m s).1).1,
     (log_data B e m s).2 ++ (handle_message B link m (log_data B e m s).1).2).
Proof.
  unfold on_decoded. destruct (log_data B e m s) as [s1 ev1]. simpl.
  by destruct (handle_message B link m s1).
Qed.

(** One round of the loop over [b]: the byte goes to the parser, a complete
    message is processed, and the loop goes on with the rest of [b] from
    the state that leaves. *)
Lemma receiveBytes_from_cons env link position c b' s :
  receiveBytes_from B env link position (c :: b') s
  = let chan := uint8_t (getId link) in
    let parsed := mavlink_parse_char B (fed s) chan (uint8_t c) in
    let s0 := set_fed ((chan, uint8_t c) :: fed s) s in
    let r1 := if parsed.1 =? 1
              then on_decoded B (env position) link parsed.2 s0
              else (s0, []) in
    let r2 := receiveBytes_from B env link (S position) b' r1.1 in
    (r2.1, r1.2 ++ r2.2).
Proof.
  cbn [receiveBytes_from]. cbv zeta.
  destruct (mavlink_parse_char B (fed s) _ _) as [decodeState message].
  cbn [fst snd].
  destruct (if decodeState =? 1 then _ else _) as [s1 ev1].
  cbn [fst snd].
  by destruct (receiveBytes_from B env link (S position) b' s1).
Qed.

Section Lifting.
Context (R : State -> list Event -> State -> Prop).
Context (HR : Compositional R).
Context (parsed : mavlink_message_t -> Prop).
Context (Hparser : forall history chan c,
  parsed (mavlink_parse_char B history chan c).2).
Context (Hhandle : forall link m s, parsed m ->
  R s (handle_message B link m s).2 (handle_message B link m s).1).

Lemma on_decoded_rel e link m s :
  parsed m -> R s (on_decoded B e link m s).2 (on_decoded B e link m s).1.
Proof.
  intros Hm. rewrite on_decoded_eq. cbn [fst snd].
  eapply (rel_app R HR).
  - apply (rel_quiet R HR), log_data_quiet.
  - by apply Hhandle.
Qed.

Lemma receiveBytes_from_rel env link b : forall position s,
  R s (receiveBytes_from B env link position b s).2
    (receiveBytes_from B env link position b s).1.
Proof.
  induction b as [|c b' IH]; intros position s.
  - apply (rel_nil R HR).
  - rewrite receiveBytes_from_cons. cbv zeta. cbn [fst snd].
    eapply (rel_app R HR); [|apply IH].
    destruct (_ =? 1).
    + replace (on_decoded B (env position) link _ _).2
        with ([] ++ (on_decoded B (env position) link
                 (mavlink_parse_char B (fed s) (uint8_t (getId link)) (uint8_t c)).2
                 (set_fed ((uint8_t (getId link), uint8_t c) :: fed s) s)).2)
        by done.
      eapply (rel_app R HR); [|apply on_decoded_rel, Hparser].
      apply (rel_quiet R HR). by unfold quiet_step.
    + apply (rel_quiet R HR). by unfold quiet_step.
Qed.

Lemma step_rel c s : R s (step B c s).2 (step B c s).1.
Proof.
  destruct c; cbn [step].
  - apply receiveBytes_from_rel.
  - apply (rel_quiet R HR), enableLogging_quiet.
  - apply (rel_quiet R HR), setLogfileName_quiet.
  - apply (rel_quiet R HR). by unfold quiet_step; repeat split; repeat constructor.
  - apply (rel_quiet R HR). by unfold quiet_step; repeat split; repeat constructor.
  - apply (rel_quiet R HR). by unfold quiet_step.
Qed.

Lemma run_eq c cs s :
  run B (c :: cs) s
  = ((run B cs (step B c s).1).1, (step B c s).2 ++ (run B cs (step B c s).1).2).
Proof.
  cbn [run]. destruct (step B c s) as [s1 e1]. cbn [fst snd].
  by destruct (run B cs s1).
Qed.

Lemma run_rel cs : forall s, R s (run B cs s).2 (run B cs s).1.
Proof.
  induction cs as [|c cs IH]; intros s.
  - apply (rel_nil R HR).
  - rewrite run_eq. cbn [fst snd].
    eapply (rel_app R HR); [apply step_rel | apply IH].
Qed.

End Lifting.

End Pipeline.

(** ** One message through admission and dispatch *)

Section Handling.
Context (B : BuildEnv).

Lemma handle_message_view link m s :
  handled B link m s (handle_message B link m s).1 (handle_message B link m s).2.
Proof.
  unfold handle_message, resolve_or_create.
  destruct (getUASForId s (sysid m)) as [u|] eqn:Hu.
  - rewrite bool_decide_eq_false_2 by done. cbn [andb].
    pose proof (handled_known B link m s u Hu) as H.
    by destruct (count_message link m s).
  - rewrite bool_decide_eq_true_2 by done. cbn [andb].
    destruct (Z.eqb_spec (msgid m) (MAVLINK_MSG_ID_HEARTBEAT B)) as [Hhb|Hhb].
    + destruct (version_rejected B m s) eqn:Hrej.
      * destruct (versionMismatchIgnore s) eqn:Hflag; cbn [negb fst snd].
        -- by apply handled_rejected_again.
        -- by apply handled_rejected_first.
      * pose proof (handled_admitted B link m s Hu Hhb Hrej) as H.
        cbv zeta in H. unfold createUAS in *. cbn [fst snd] in *.
        destruct (count_message link m _) as [s2 ev2]. cbn [fst snd] in *.
        by rewrite <- app_assoc.
    + cbn [fst snd]. by apply handled_stranger.
Qed.

Lemma count_message_frame link m s :
  let s' := (count_message link m s).1 in
  versionMismatchIgnore s' = versionMismatchIgnore s /\
  uasManager s' = uasManager s /\
  m_enable_version_check s' = m_enable_version_check s /\
  systemId s' = systemId s /\
  m_loggingEnabled s' = m_loggingEnabled s /\
  m_logfile s' = m_logfile s /\
  m_heartbeatsEnabled s' = m_heartbeatsEnabled s /\
  fed s' = fed s.
Proof.
  cbv zeta. rewrite count_message_fst. unfold report_loss, update_index.
  destruct (report_due _ _); by destruct (_ =? -1).
Qed.

Lemma update_index_loss_grows m s :
  totalLossCounter s <= totalLossCounter (update_index m s) /\
  currLossCounter (update_index m s) - currLossCounter s
  = totalLossCounter (update_index m s) - totalLossCounter s.
Proof.
  unfold update_index. destruct (_ =? -1); cbn; [lia|].
  match goal with
  | |- context [reconcile ?l ?q ?t ?c] =>
      destruct (reconcile_counts l q t c) as (H1 & H2 & H3 & _)
  end.
  lia.
Qed.

Lemma report_loss_events lastLoss m s :
  (report_loss lastLoss m s).2
  = if report_due lastLoss s
    then [receiveLossChanged (sysid m)
            (receiveLoss (currLossCounter s) (currReceiveCounter s))]
    else [].
Proof. unfold report_loss. by destruct (report_due lastLoss s). Qed.

Lemma report_loss_window lastLoss m s :
  let s' := (report_loss lastLoss m s).1 in
  if report_due lastLoss s
  then currLossCounter s' = 0 /\ currReceiveCounter s' = 0
  else currLossCounter s' = currLossCounter s /\
       currReceiveCounter s' = currReceiveCounter s.
Proof. unfold report_loss. by destruct (report_due lastLoss s). Qed.

Lemma report_due_spec lastLoss s :
  lastLoss <= totalLossCounter s ->
  report_due lastLoss s = true
  <-> lastLoss < totalLossCounter s \/ (64 | totalReceiveCounter s).
Proof.
  intros Hle. unfold report_due. rewrite orb_true_iff, negb_true_iff.
  rewrite Z.eqb_neq, Z.eqb_eq, Z.rem_divide by lia.
  split; (intros [H|H]; [left; lia|by right]).
Qed.

End Handling.

(** ** The counters along a run *)

Section Counters.
Context (B : BuildEnv).

Lemma count_message_grows link m s :
  counters_grow s (count_message link m s).2 (count_message link m s).1.
Proof.
  unfold counters_grow. rewrite count_message_fst.
  destruct (report_loss_keeps (totalLossCounter s) m (update_index m s))
    as (_ & -> & ->).
  destruct (update_index_received m s) as [-> _].
  destruct (update_index_loss_grows m s) as [H _]. lia.
Qed.

Lemma counters_grow_compositional : Compositional counters_grow.
Proof.
  split; unfold counters_grow, quiet_step.
  - lia.
  - lia.
  - intros s ev s' (_ & -> & -> & _). lia.
Qed.

Lemma handle_message_grows link m s :
  counters_grow s (handle_message B link m s).2 (handle_message B link m s).1.
Proof.
  destruct (handle_message_view B link m s).
  - apply count_message_grows.
  - unfold counters_grow; lia.
  - unfold counters_grow; cbn; lia.
  - unfold counters_grow; lia.
  - apply (count_message_grows link m s1).
Qed.

Lemma run_grows cs s : counters_grow s (run B cs s).2 (run B cs s).1.
Proof.
  apply (run_rel B counters_grow counters_grow_compositional (fun _ => True));
    [done|]. intros. apply handle_message_grows.
Qed.

Lemma count_message_window link m s :
  window_kept s (count_message link m s).2 (count_message link m s).1.
Proof.
  unfold window_kept, window_nonneg. intros [Hr Hl].
  rewrite count_message_fst.
  pose proof (report_loss_window (totalLossCounter s) m (update_index m s)) as H.
  cbv zeta in H.
  destruct (update_index_received m s) as [_ Hcr].
  destruct (update_index_loss_grows m s) as [Hg Hd].
  destruct (report_due _ _); lia.
Qed.

Lemma window_kept_compositional : Compositional window_kept.
Proof.
  split; unfold window_kept, window_nonneg, quiet_step.
  - done.
  - auto.
  - intros s ev s' (_ & _ & _ & -> & -> & _). done.
Qed.

Lemma handle_message_window link m s :
  window_kept s (handle_message B link m s).2 (handle_message B link m s).1.
Proof.
  destruct (handle_message_view B link m s).
  - apply count_message_window.
  - by unfold window_kept.
  - by unfold window_kept, window_nonneg.
  - by unfold window_kept.
  - apply (count_message_window link m s1).
Qed.

Lemma reachable_window s : reachable B s -> window_nonneg s.
Proof.
  induction 1 as [settings open_ok registry|c s _ IH].
  - unfold MAVLinkProtocol_new. destruct (loadSettings _ _ _) as [s1 e1].
    unfold window_nonneg. cbn. lia.
  - revert IH.
    apply (step_rel B window_kept window_kept_compositional (fun _ => True));
      [done|]. intros. apply handle_message_window.
Qed.

(** With a parser that yields 8-bit sequence numbers, the stored indices
    stay in range in every state the object can reach: the premises of the
    tracker's theorems hold there. *)
Lemma lastIndex_at_insert s li tr tl cr cl k v sys comp :
  lastIndex_at (set_tracker (<[k := v]> li) tr tl cr cl s) sys comp
  = if decide (k = (sys, comp)) then v else default (-1) (li !! (sys, comp)).
Proof.
  rewrite lastIndex_at_set_tracker, lookup_insert. by destruct (decide _).
Qed.

Lemma count_message_range link m s :
  0 <= seq m <= 255 ->
  range_kept s (count_message link m s).2 (count_message link m s).1.
Proof.
  intros Hseq Hs sys comp. unfold lastIndex_at.
  rewrite count_message_fst.
  destruct (report_loss_keeps (totalLossCounter s) m (update_index m s))
    as (-> & _).
  pose proof (Hs (sysid m) (compid m)) as Hlast. pose proof (Hs sys comp) as Hold.
  destruct (Z.eq_dec (lastIndex_at s (sysid m) (compid m)) (-1)) as [H1|H1].
  - rewrite update_index_first by done.
    change (-1 <= lastIndex_at (set_tracker
      (<[(sysid m, compid m) := seq m]> (lastIndex s))
      (totalReceiveCounter s + 1) (totalLossCounter s)
      (currReceiveCounter s + 1) (currLossCounter s) s) sys comp <= 255).
    rewrite lastIndex_at_insert. destruct (decide _); [lia|exact Hold].
  - rewrite update_index_seen by done. cbv zeta.
    rewrite reconcile_spec by lia. cbn [idx totalLoss currLoss].
    match goal with
    | |- _ <= default _ (lastIndex ?st !! _) <= _ =>
        change (-1 <= lastIndex_at st sys comp <= 255)
    end.
    rewrite lastIndex_at_insert. destruct (decide _); [lia|exact Hold].
Qed.

Lemma range_kept_compositional : Compositional range_kept.
Proof.
  split; unfold range_kept, lastIndex_in_range, lastIndex_at, quiet_step.
  - done.
  - auto.
  - intros s ev s' (-> & _). done.
Qed.

Lemma handle_message_range link m s :
  0 <= seq m <= 255 ->
  range_kept s (handle_message B link m s).2 (handle_message B link m s).1.
Proof.
  intros Hseq. destruct (handle_message_view B link m s).
  - by apply count_message_range.
  - by unfold range_kept.
  - by unfold range_kept.
  - by unfold range_kept.
  - intros Hs. apply (count_message_range link m s1 Hseq). exact Hs.
Qed.

Lemma reachable_lastIndex_in_range s :
  (forall history chan c, 0 <= seq (mavlink_parse_char B history chan c).2 <= 255) ->
  reachable B s -> lastIndex_in_range s.
Proof.
  intros Hparser. induction 1 as [settings open_ok registry|c s _ IH].
  - unfold MAVLinkProtocol_new. destruct (loadSettings _ _ _) as [s1 e1].
    intros sys comp. unfold lastIndex_at. cbn. rewrite lookup_empty. cbn. lia.
  - revert IH.
    apply (step_rel B range_kept range_kept_compositional
             (fun m => 0 <= seq m <= 255) Hparser).
    intros. by apply handle_message_range.
Qed.

End Counters.

(** ** C3 *)

(** C3. For a counted message a loss-ratio notification is emitted exactly
    when a loss was recorded in this call or the lifetime received counter
    is a multiple of 64; it carries lost / (lost + received) * 100 over
    the windowed counters, which are both zero right after; without a
    report the window is kept; the lifetime counters only grow, along
    every run. *)
Theorem C3_loss_report (B : BuildEnv) (link : LinkInterface)
    (m : mavlink_message_t) (s : State) :
  let s1 := update_index m s in
  let r := count_message link m s in
  let lost := currLossCounter s1 in
  let received := currReceiveCounter s1 in
  let reported :=
    totalLossCounter s < totalLossCounter r.1 \/ (64 | totalReceiveCounter r.1) in
  ((exists sys ratio, receiveLossChanged sys ratio ∈ r.2) <-> reported) /\
  (reported ->
     r.2 = [receiveLossChanged (sysid m) (receiveLoss lost received);
            messageReceived link m] /\
     currLossCounter r.1 = 0 /\ currReceiveCounter r.1 = 0) /\
  (~ reported ->
     r.2 = [messageReceived link m] /\
     currLossCounter r.1 = lost /\ currReceiveCounter r.1 = received) /\
  (receiveLoss lost received
   == inject_Z lost / (inject_Z lost + inject_Z received) * 100)%Q /\
  totalReceiveCounter r.1 = totalReceiveCounter s + 1 /\
  (forall cs s0,
     totalReceiveCounter s0 <= totalReceiveCounter (run B cs s0).1 /\
     totalLossCounter s0 <= totalLossCounter (run B cs s0).1).
Proof.
  cbv zeta.
  set (s1 := update_index m s). set (r := count_message link m s).
  set (lost := currLossCounter s1). set (received := currReceiveCounter s1).
  set (reported := _ \/ _).
  assert (report_due (totalLossCounter s) s1 = true <-> reported) as Hdue.
  { subst reported r. rewrite count_message_fst. fold s1.
    destruct (report_loss_keeps (totalLossCounter s) m s1) as (_ & -> & ->).
    apply report_due_spec. apply update_index_loss_grows. }
  assert (r.2 = (if report_due (totalLossCounter s) s1
                 then [receiveLossChanged (sysid m) (receiveLoss lost received)]
                 else []) ++ [messageReceived link m]) as Hev.
  { subst r. by rewrite count_message_snd, report_loss_events. }
  pose proof (report_loss_window (totalLossCounter s) m s1) as Hwin.
  cbv zeta in Hwin. unfold s1 in Hwin.
  rewrite <- (count_message_fst link) in Hwin. fold r s1 in Hwin.
  fold lost received in Hwin.
  split; [|split; [|split; [|split; [|split]]]].
  - rewrite <- Hdue, Hev. destruct (report_due _ _); split.
    + done.
    + intros _. exists (sysid m), (receiveLoss lost received). set_solver.
    + intros (sys & ratio & Hin). set_solver.
    + done.
  - intros Hrep. apply Hdue in Hrep. rewrite Hrep in Hev, Hwin. by rewrite Hev.
  - intros Hrep. destruct (report_due _ _) eqn:Hd.
    + exfalso. by apply Hrep, Hdue.
    + by rewrite Hev.
  - unfold receiveLoss. rewrite inject_Z_plus.
    by rewrite (Qplus_comm (inject_Z received)).
  - subst r. rewrite count_message_fst. fold s1.
    destruct (report_loss_keeps (totalLossCounter s) m s1) as (_ & -> & _).
    apply update_index_received.
  - intros cs s0. apply run_grows.
Qed.

(** ** The version warning along a run *)

Lemma version_warnings_app e1 e2 :
  version_warnings (e1 ++ e2) = (version_warnings e1 + version_warnings e2)%nat.
Proof. unfold version_warnings. by rewrite filter_app, length_app. Qed.

Lemma version_warnings_cons_other e ev :
  is_version_warning e = false -> version_warnings (e :: ev) = version_warnings ev.
Proof.
  intros H. unfold version_warnings. rewrite filter_cons_False; [done|].
  by rewrite H.
Qed.

Lemma version_warnings_housekeeping ev :
  Forall housekeeping ev -> version_warnings ev = 0%nat.
Proof.
  induction 1 as [|e ev He _ IH]; [done|].
  rewrite version_warnings_cons_other; [done|].
  destruct e as [[]| | | | | |]; done.
Qed.


Lemma version_warnings_count_message link m s :
  version_warnings (count_message link m s).2 = 0%nat.
Proof.
  rewrite count_message_snd, report_loss_events.
  by destruct (report_due _ _).
Qed.


Section Warning.
Context (B : BuildEnv).




End Warning.

(** ** C4 *)


(** ** Creation before dispatch *)

Lemma created_app e1 e2 : created (e1 ++ e2) = created e1 ∪ created e2.
Proof.
  induction e1 as [|e e1 IH]; cbn [app created].
  - set_solver.
  - destruct e; rewrite ?IH; set_solver.
Qed.

Lemma elem_of_created sys ev :
  sys ∈ created ev <-> exists l hb, createUAS_called l sys hb ∈ ev.
Proof.
  induction ev as [|e ev IH]; cbn [created].
  - split; [set_solver|]. intros (l & hb & H). set_solver.
  - destruct e as [t|y r|l0 m0|b0|b0|b0|l0 sys0 hb0];
      try (rewrite IH; split; intros (l & hb & H); exists l, hb; set_solver).
    rewrite elem_of_union, elem_of_singleton, IH. split.
    + intros [->|(l & hb & H)]; [exists l0, hb0|exists l, hb]; set_solver.
    + intros (l & hb & H). apply elem_of_cons in H as [H|H].
      * left. congruence.
      * right. by exists l, hb.
Qed.

Lemma guarded_mono ev : forall K K', K ⊆ K' -> guarded K ev -> guarded K' ev.
Proof.
  induction ev as [|e ev IH]; intros K K' Hsub; cbn [guarded]; [done|].
  destruct e; try (by apply IH).
  - intros [Hin Hg]. split; [set_solver|by eapply IH].
  - apply IH. set_solver.
Qed.

Lemma guarded_app e1 : forall K e2,
  guarded K (e1 ++ e2) <-> guarded K e1 /\ guarded (created e1 ∪ K) e2.
Proof.
  induction e1 as [|e e1 IH]; intros K e2; cbn [app guarded created].
  - replace (∅ ∪ K) with K by set_solver. tauto.
  - destruct e as [t|y r|l0 m0|b0|b0|b0|l0 sys0 hb0]; rewrite ?IH; try tauto.
    replace (created e1 ∪ ({[sys0]} ∪ K)) with ({[sys0]} ∪ created e1 ∪ K)
      by set_solver.
    tauto.
Qed.

Lemma guarded_middle K pre l m post :
  guarded K (pre ++ messageReceived l m :: post) -> sysid m ∈ created pre ∪ K.
Proof. rewrite guarded_app. cbn [guarded]. tauto. Qed.

Lemma housekeeping_guarded K ev :
  Forall housekeeping ev -> guarded K ev /\ created ev = ∅.
Proof.
  induction 1 as [|e ev He _ [IH1 IH2]]; [done|].
  destruct e as [[]| | | | | |]; done.
Qed.

Lemma id_conflict_guarded K m s :
  guarded K (id_conflict m s) /\ created (id_conflict m s) = ∅.
Proof. unfold id_conflict. by destruct (_ =? _). Qed.

Lemma count_message_guarded K link m s :
  sysid m ∈ K ->
  guarded K (count_message link m s).2 /\ created (count_message link m s).2 = ∅.
Proof.
  intros Hin. rewrite count_message_snd, report_loss_events.
  by destruct (report_due _ _).
Qed.

Lemma registry_guard_compositional : Compositional registry_guard.
Proof.
  split; unfold registry_guard.
  - intros s. cbn. split; [set_solver|done].
  - intros s1 e1 s2 e2 s3 [Hd1 Hg1] [Hd2 Hg2].
    rewrite created_app, guarded_app, Hd2, Hd1. split; [set_solver|].
    split; [done|]. by rewrite <- Hd1.
  - intros s ev s' (_ & _ & _ & _ & _ & _ & -> & Hev).
    destruct (housekeeping_guarded (dom (uasManager s)) ev Hev) as [Hg ->].
    split; [set_solver|done].
Qed.

Section Registry.
Context (B : BuildEnv).

Lemma handle_message_registry_guard link m s :
  registry_guard s (handle_message B link m s).2 (handle_message B link m s).1.
Proof.
  unfold registry_guard.
  destruct (handle_message_view B link m s) as [u Hu|Hu Hm|Hu Hm Hrej Hflag
    |Hu Hm Hrej Hflag|Hu Hm Hrej hb s1].
  - destruct (count_message_frame link m s) as (_ & -> & _).
    assert (sysid m ∈ dom (uasManager s)) as Hin.
    { apply elem_of_dom. by exists u. }
    destruct (count_message_guarded _ link m s Hin) as [Hg ->].
    split; [set_solver|done].
  - cbn. split; [set_solver|done].
  - rewrite created_app, guarded_app.
    destruct (id_conflict_guarded (dom (uasManager s)) m s) as [Hg ->].
    cbn. split; [set_solver|done].
  - destruct (id_conflict_guarded (dom (uasManager s)) m s) as [Hg ->].
    split; [set_solver|done].
  - destruct (count_message_frame link m s1) as (_ & -> & _).
    rewrite created_app, guarded_app.
    destruct (id_conflict_guarded (dom (uasManager s)) m s) as [Hg ->].
    cbn [created guarded].
    assert (sysid m ∈ {[sysid m]} ∪ (∅ ∪ dom (uasManager s))) as Hin by set_solver.
    destruct (count_message_guarded _ link m s1 Hin) as [Hg1 ->].
    subst s1. cbn. rewrite dom_insert_L. split; [set_solver|done].
Qed.

Lemma run_registry_guard cs s :
  registry_guard s (run B cs s).2 (run B cs s).1.
Proof.
  apply (run_rel B registry_guard registry_guard_compositional (fun _ => True));
    [done|]. intros. apply handle_message_registry_guard.
Qed.

Lemma on_decoded_registry_guard e link m s :
  registry_guard s (on_decoded B e link m s).2 (on_decoded B e link m s).1.
Proof.
  apply (on_decoded_rel B registry_guard registry_guard_compositional
           (fun _ => True)); [|done].
  intros. apply handle_message_registry_guard.
Qed.

Lemma housekeeping_not_dispatch ev l m :
  Forall housekeeping ev -> messageReceived l m ∉ ev.
Proof.
  intros H Hin. rewrite Forall_forall in H. by apply H in Hin.
Qed.

Lemma count_message_dispatches_own link m s l' m' :
  messageReceived l' m' ∈ (count_message link m s).2 -> l' = link /\ m' = m.
Proof.
  rewrite count_message_snd, report_loss_events.
  destruct (report_due _ _); set_solver.
Qed.

Lemma id_conflict_not_dispatch m s l' m' :
  messageReceived l' m' ∉ id_conflict m s.
Proof. unfold id_conflict. destruct (_ =? _); set_solver. Qed.

Lemma on_decoded_dispatches_own e link m s l' m' :
  messageReceived l' m' ∈ (on_decoded B e link m s).2 -> l' = link /\ m' = m.
Proof.
  rewrite on_decoded_eq. cbn [snd]. rewrite elem_of_app. intros [Hin|Hin].
  - exfalso. revert Hin. apply housekeeping_not_dispatch.
    by destruct (log_data_quiet B e m s) as (_ & _ & _ & _ & _ & _ & _ & H).
  - revert Hin.
    destruct (handle_message_view B link m (log_data B e m s).1)
      as [u Hu|Hu Hm|Hu Hm Hrej Hflag|Hu Hm Hrej Hflag|Hu Hm Hrej hb s1].
    + apply count_message_dispatches_own.
    + set_solver.
    + rewrite elem_of_app. intros [H|H]; [by apply id_conflict_not_dispatch in H|].
      set_solver.
    + intros H. by apply id_conflict_not_dispatch in H.
    + rewrite elem_of_app. intros [H|H]; [by apply id_conflict_not_dispatch in H|].
      apply elem_of_cons in H as [H|H]; [done|].
      by apply count_message_dispatches_own in H.
Qed.

End Registry.

(** ** C1 *)

(** C1. In the trace of any run, a [messageReceived] for a message comes
    only after the vehicle of its system id exists: the registry held it
    when the run began, or a [createUAS] call for that id stands earlier in
    the trace, and the registry holds it when the run ends.  Within the
    processing of one decoded message, the dispatch is of that very message
    on its link, and the vehicle was found by the lookup or created
    earlier in that processing. *)
Theorem C1_dispatch_after_creation (B : BuildEnv) (cs : list Call) (s : State)
    (pre post : list Event) (link : LinkInterface) (m : mavlink_message_t) :
  (run B cs s).2 = pre ++ messageReceived link m :: post ->
  (is_Some (uasManager s !! sysid m)
   \/ exists l hb, createUAS_called l (sysid m) hb ∈ pre) /\
  is_Some (uasManager (run B cs s).1 !! sysid m) /\
  (forall e l0 m0 s0 pre0 l' m' post0,
     (on_decoded B e l0 m0 s0).2 = pre0 ++ messageReceived l' m' :: post0 ->
     l' = l0 /\ m' = m0 /\
     (is_Some (getUASForId s0 (sysid m0))
      \/ exists l hb, createUAS_called l (sysid m0) hb ∈ pre0) /\
     is_Some (getUASForId (on_decoded B e l0 m0 s0).1 (sysid m0))).
Proof.
  intros Htrace.
  destruct (run_registry_guard B cs s) as [Hdom Hg].
  rewrite Htrace in Hg, Hdom.
  pose proof (guarded_middle _ _ _ _ _ Hg) as Hin.
  split; [|split].
  - apply elem_of_union in Hin as [Hin|Hin].
    + right. by apply elem_of_created.
    + left. by apply elem_of_dom.
  - apply elem_of_dom. rewrite Hdom, created_app. cbn [created].
    set_solver.
  - intros e l0 m0 s0 pre0 l' m' post0 Hev.
    assert (l' = l0 /\ m' = m0) as [-> ->].
    { apply (on_decoded_dispatches_own B e l0 m0 s0). rewrite Hev. set_solver. }
    destruct (on_decoded_registry_guard B e l0 m0 s0) as [Hdom0 Hg0].
    rewrite Hev in Hg0, Hdom0.
    pose proof (guarded_middle _ _ _ _ _ Hg0) as Hin0.
    split; [done|]. split; [done|]. split.
    + apply elem_of_union in Hin0 as [Hin0|Hin0].
      * right. by apply elem_of_created.
      * left. by apply elem_of_dom.
    + unfold getUASForId. apply elem_of_dom. rewrite Hdom0, created_app.
      set_solver.
Qed.

(** ** The logging sink leaves everything but the logging members alone *)

Lemma enableLogging_frame enabled open_ok s :
  same_but_logging s (enableLogging enabled open_ok s).1.
Proof.
  unfold enableLogging, same_but_logging.
  destruct enabled, (m_logfile s) as [f|] eqn:Hf; cbn.
  - destruct (isOpen f); cbn; rewrite ?Hf; by destruct open_ok.
  - by rewrite Hf.
  - done.
  - done.
Qed.

Lemma enableLogging_false_events open_ok s :
  (enableLogging false open_ok s).2
  = if m_loggingEnabled s then [loggingChanged false] else [].
Proof.
  unfold enableLogging. destruct (m_logfile s), (m_loggingEnabled s); done.
Qed.

Section Sink.
Context (B : BuildEnv).

Lemma log_data_frame e m s : same_but_logging s (log_data B e m s).1.
Proof.
  unfold log_data.
  destruct (m_loggingEnabled s); [|by unfold same_but_logging].
  destruct (m_logfile s) as [f|]; [|by unfold same_but_logging].
  destruct (QFile_write f _ _) as [f' ret].
  destruct (write_short B ret); [|by unfold same_but_logging].
  pose proof (enableLogging_frame false false (set_logfile (Some f') s)) as H.
  by destruct (enableLogging false false _) as [s2 ev].
Qed.

(** What the sink can emit: the failure warning followed by the signal
    that logging went off. *)
Lemma log_data_events e m s :
  (log_data B e m s).2 = []
  \/ exists f, m_logfile s = Some f /\ m_loggingEnabled s = true /\
       write_short B (QFile_write f (log_record B e m) (device_accepts e)).2 = true /\
       (log_data B e m s).2
       = [protocolStatusMessage (LoggingFailed (fileName f)); loggingChanged false].
Proof.
  unfold log_data.
  destruct (m_loggingEnabled s) eqn:Hen; [|by left].
  destruct (m_logfile s) as [f|]; [|by left].
  destruct (QFile_write f _ _) as [f' ret] eqn:Hw.
  destruct (write_short B ret) eqn:Hshort; [|by left].
  right. exists f.
  pose proof (enableLogging_false_events false (set_logfile (Some f') s)) as H.
  destruct (enableLogging false false _) as [s2 ev]. cbn in H.
  rewrite Hen in H. subst ev. rewrite Hw. by cbn.
Qed.

Lemma log_data_off e m s : m_loggingEnabled s = false -> log_data B e m s = (s, []).
Proof. intros H. unfold log_data. by rewrite H. Qed.

Lemma log_data_full e m s f :
  m_loggingEnabled s = true -> m_logfile s = Some f ->
  write_short B (QFile_write f (log_record B e m) (device_accepts e)).2 = false ->
  log_data B e m s
  = (set_logfile
       (Some (QFile_write f (log_record B e m) (device_accepts e)).1) s, []).
Proof.
  intros Hen Hf Hw. unfold log_data. rewrite Hen, Hf.
  destruct (QFile_write f _ _) as [f' ret]. cbn in *. by rewrite Hw.
Qed.

End Sink.

(** ** C9 *)

(** C9 (as amended). A decoded message that is not a heartbeat and whose
    system id has no vehicle is dropped by admission and dispatch: the
    whole processing is that of the logging sink.  No vehicle is created,
    no counter changes, no loss ratio is reported, nothing is dispatched,
    and every member but the logging flag and the log file keeps its
    value.  The only events possible are those of a failed log write; with
    logging off, or a write that is not short, there is no event and the
    logging flag keeps its value. *)
Theorem C9_stranger_dropped (B : BuildEnv) (e : Env) (link : LinkInterface)
    (m : mavlink_message_t) (s : State) :
  getUASForId s (sysid m) = None ->
  msgid m <> MAVLINK_MSG_ID_HEARTBEAT B ->
  let r := on_decoded B e link m s in
  handle_message B link m (log_data B e m s).1 = ((log_data B e m s).1, []) /\
  r = log_data B e m s /\
  same_but_logging s r.1 /\
  (forall ev, ev ∈ r.2 ->
     exists f, m_logfile s = Some f /\
       (ev = protocolStatusMessage (LoggingFailed (fileName f))
        \/ ev = loggingChanged false)) /\
  (m_loggingEnabled s = false -> r = (s, [])) /\
  (forall f, m_loggingEnabled s = true -> m_logfile s = Some f ->
     write_short B (QFile_write f (log_record B e m) (device_accepts e)).2 = false ->
     r.2 = [] /\ m_loggingEnabled r.1 = true).
Proof.
  intros Hu Hm r.
  pose proof (log_data_frame B e m s) as Hframe.
  assert (handle_message B link m (log_data B e m s).1 = ((log_data B e m s).1, []))
    as Hdrop.
  { destruct Hframe as (_ & _ & _ & _ & _ & _ & _ & _ & _ & Hreg & _).
    unfold handle_message, resolve_or_create, getUASForId in *. rewrite Hreg, Hu.
    rewrite bool_decide_eq_true_2 by done. cbn [andb].
    by destruct (Z.eqb_spec (msgid m) (MAVLINK_MSG_ID_HEARTBEAT B)). }
  assert (r = log_data B e m s) as Hr.
  { subst r. rewrite on_decoded_eq, Hdrop. cbn [fst snd].
    rewrite app_nil_r. by destruct (log_data B e m s). }
  split; [done|]. split; [done|]. rewrite Hr. split; [done|]. split; [|split].
  - intros ev Hin.
    destruct (log_data_events B e m s) as [Hnil|(f & Hf & _ & _ & Hev)].
    + rewrite Hnil in Hin. set_solver.
    + exists f. split; [done|]. rewrite Hev in Hin. set_solver.
  - apply log_data_off.
  - intros f Hen Hf Hw. by rewrite (log_data_full B e m s f).
Qed.

(** ** C5 *)

(** C5. A byte completes a heartbeat from a system id without a vehicle.
    The loop processes it and goes on with the rest of the input.  With
    version checking enabled and a version different from ours, the
    registry and the tracker are as before and no event creates a
    vehicle, reports a loss ratio or dispatches; with version checking
    disabled the vehicle is created, whatever the version, and the message
    is counted and dispatched. *)
Theorem C5_version_gate (B : BuildEnv) (env : nat -> Env)
    (link : LinkInterface) (position : nat) (c : Z) (b' : list Z) (s : State)
    (m : mavlink_message_t) :
  mavlink_parse_char B (fed s) (uint8_t (getId link)) (uint8_t c) = (1, m) ->
  getUASForId s (sysid m) = None ->
  msgid m = MAVLINK_MSG_ID_HEARTBEAT B ->
  let s0 := set_fed ((uint8_t (getId link), uint8_t c) :: fed s) s in
  let r1 := on_decoded B (env position) link m s0 in
  let rest := receiveBytes_from B env link (S position) b' r1.1 in
  receiveBytes_from B env link position (c :: b') s = (rest.1, r1.2 ++ rest.2) /\
  (m_enable_version_check s = true ->
   mavlink_version (mavlink_msg_heartbeat_decode B m) <> MAVLINK_VERSION B ->
   uasManager r1.1 = uasManager s /\
   lastIndex r1.1 = lastIndex s /\
   totalReceiveCounter r1.1 = totalReceiveCounter s /\
   totalLossCounter r1.1 = totalLossCounter s /\
   currReceiveCounter r1.1 = currReceiveCounter s /\
   currLossCounter r1.1 = currLossCounter s /\
   Forall not_admitting r1.2) /\
  (m_enable_version_check s = false ->
   createUAS_called link (sysid m) (mavlink_msg_heartbeat_decode B m) ∈ r1.2 /\
   messageReceived link m ∈ r1.2 /\
   is_Some (uasManager r1.1 !! sysid m) /\
   totalReceiveCounter r1.1 = totalReceiveCounter s + 1).
Proof.
  intros Hparse Hu Hm s0 r1 rest.
  split.
  { rewrite receiveBytes_from_cons. cbv zeta. rewrite Hparse. cbn [fst snd].
    by rewrite Z.eqb_refl. }
  set (e := env position) in *.
  pose proof (log_data_frame B e m s0) as Hframe.
  destruct Hframe as (_ & Hck & Hli & Htr & Htl & Hcr & Hcl & Hig & _ & Hreg & _).
  cbn in Hck, Hli, Htr, Htl, Hcr, Hcl, Hig, Hreg.
  assert (Forall not_admitting (log_data B e m s0).2) as Hlog.
  { destruct (log_data_events B e m s0) as [->|(f & _ & _ & _ & ->)];
      repeat constructor. }
  assert (Forall not_admitting (id_conflict m (log_data B e m s0).1)) as Hconf.
  { unfold id_conflict. destruct (_ =? _); repeat constructor. }
  assert (getUASForId (log_data B e m s0).1 (sysid m) = None) as Hu1.
  { unfold getUASForId in *. by rewrite Hreg. }
  subst r1. rewrite on_decoded_eq. cbn [fst snd].
  split.
  - intros Hen Hver.
    assert (version_rejected B m (log_data B e m s0).1 = true) as Hrej.
    { unfold version_rejected. rewrite Hck, Hen. cbn.
      by destruct (Z.eqb_spec (mavlink_version (mavlink_msg_heartbeat_decode B m))
                     (MAVLINK_VERSION B)). }
    destruct (handle_message_view B link m (log_data B e m s0).1)
      as [u Hu'|_ Hm'|_ _ _ Hflag|_ _ _ Hflag|_ _ Hrej' hb s1]; try congruence.
    + cbn. repeat split; try done.
      apply Forall_app; split; [done|]. apply Forall_app; split; [done|].
      repeat constructor.
    + repeat split; try done. apply Forall_app; by split.
  - intros Hen.
    assert (version_rejected B m (log_data B e m s0).1 = false) as Hrej.
    { unfold version_rejected. by rewrite Hck, Hen. }
    destruct (handle_message_view B link m (log_data B e m s0).1)
      as [u Hu'|_ Hm'|_ _ Hrej' _|_ _ Hrej' _|_ _ _ hb s1]; try congruence.
    destruct (count_message_frame link m s1) as (_ & -> & _).
    split; [set_solver|]. split.
    { rewrite count_message_snd. set_solver. }
    split.
    { subst s1. cbn. rewrite lookup_insert_eq. by eexists. }
    rewrite count_message_fst.
    destruct (report_loss_keeps (totalLossCounter s1) m (update_index m s1))
      as (_ & -> & _).
    destruct (update_index_received m s1) as [-> _].
    subst s1. cbn. by rewrite Htr.
Qed.

(** ** The log record *)

Lemma length_le_bytes n : forall v, length (le_bytes n v) = n.
Proof. induction n as [|n IH]; intros v; cbn; [done|by rewrite IH]. Qed.

Lemma le_value_le_bytes n : forall v, le_value (le_bytes n v) = v mod 256 ^ Z.of_nat n.
Proof.
  induction n as [|n IH]; intros v.
  - cbn. by rewrite Z.mod_1_r.
  - cbn [le_bytes le_value]. rewrite IH, Nat2Z.inj_succ, Z.pow_succ_r by lia.
    rewrite Z.rem_mul_r; [done|lia|]. apply Z.pow_pos_nonneg; lia.
Qed.

Lemma length_uninitialised n garbage : length (uninitialised n garbage) = n.
Proof.
  unfold uninitialised. rewrite length_take, length_app, length_replicate. lia.
Qed.

Lemma blit_fits off src dst :
  (off + length src <= length dst)%nat ->
  blit off src dst = take off dst ++ src ++ drop (off + length src) dst.
Proof.
  intros H. unfold blit. rewrite (take_ge src); [done|lia].
Qed.

Lemma QFile_write_full f b accepts :
  isOpen f = true -> Z.of_nat (length b) <= accepts ->
  QFile_write f b accepts
  = ({| fileName := fileName f; isOpen := true; written := written f ++ b |},
     Z.of_nat (length b)).
Proof.
  intros Hopen Hacc. unfold QFile_write. rewrite Hopen.
  destruct (Z.ltb_spec accepts 0); [lia|].
  rewrite Z.min_r by lia. rewrite Nat2Z.id, firstn_all. done.
Qed.

Lemma QFile_write_closed f b accepts :
  isOpen f = false -> QFile_write f b accepts = (f, -1).
Proof. intros H. unfold QFile_write. by rewrite H. Qed.

(** ** C7 *)

(** C7 (as amended). The record handed to the log file is the 8-byte
    little-endian timestamp, then the complete frame, then padding: the
    bytes the stack buffer held beyond the frame, up to
    MAVLINK_MAX_PACKET_LEN.  Every record is thus MAVLINK_MAX_PACKET_LEN + 8
    bytes long whatever the frame's length, and when the device takes it
    whole it is appended to the file as it is, with nothing between
    records. *)
Theorem C7_log_record_layout (B : BuildEnv) (e : Env) (m : mavlink_message_t) :
  let frame := mavlink_msg_to_send_buffer B m in
  let stamp := le_bytes 8 (quint64 (groundTimeUsecs e)) in
  let padding :=
    drop (8 + length frame)
      (uninitialised (Z.to_nat (record_len B)) (stack_bytes e)) in
  Z.of_nat (length frame) <= MAVLINK_MAX_PACKET_LEN B ->
  log_record B e m = stamp ++ frame ++ padding /\
  length stamp = 8%nat /\
  le_value stamp = groundTimeUsecs e mod 2 ^ 64 /\
  Z.of_nat (length padding) = MAVLINK_MAX_PACKET_LEN B - Z.of_nat (length frame) /\
  Z.of_nat (length (log_record B e m)) = MAVLINK_MAX_PACKET_LEN B + 8 /\
  (forall s f,
     m_loggingEnabled s = true -> m_logfile s = Some f -> isOpen f = true ->
     record_len B <= device_accepts e -> record_len B < 2 ^ 64 ->
     log_data B e m s
     = (set_logfile
          (Some {| fileName := fileName f; isOpen := true;
                   written := written f ++ log_record B e m |}) s, [])).
Proof.
  intros frame stamp padding Hfit.
  set (n := Z.to_nat (record_len B)).
  set (U := uninitialised n (stack_bytes e)).
  assert (length U = n) as HU by apply length_uninitialised.
  assert (length stamp = 8%nat) as Hstamp by apply length_le_bytes.
  assert (n = (8 + Z.to_nat (MAVLINK_MAX_PACKET_LEN B))%nat) as Hn.
  { subst n. unfold record_len. lia. }
  assert (length frame <= Z.to_nat (MAVLINK_MAX_PACKET_LEN B))%nat as Hfit' by lia.
  assert (log_record B e m = stamp ++ frame ++ padding) as Hrec.
  { unfold log_record. fold n U stamp frame.
    rewrite (blit_fits 0 stamp U) by lia.
    rewrite take_0, app_nil_l, Hstamp.
    rewrite blit_fits; [|rewrite length_app, length_drop; lia].
    rewrite take_app_length' by done.
    rewrite drop_app_add' by done. rewrite drop_drop.
    subst padding. fold n U. do 3 f_equal. }
  assert (length padding = (Z.to_nat (MAVLINK_MAX_PACKET_LEN B) - length frame)%nat)
    as Hpad.
  { subst padding. fold n U. rewrite length_drop. lia. }
  assert (Z.of_nat (length (log_record B e m)) = record_len B) as Hlen.
  { rewrite Hrec, !length_app, Hstamp, Hpad. unfold record_len. lia. }
  split; [done|]. split; [done|]. split.
  { subst stamp. rewrite le_value_le_bytes. unfold quint64.
    change (256 ^ Z.of_nat 8) with (2 ^ 64). by rewrite Z.mod_mod. }
  split; [lia|]. split; [done|].
  intros s f Hen Hf Hopen Hacc Hsmall.
  assert (QFile_write f (log_record B e m) (device_accepts e)
          = ({| fileName := fileName f; isOpen := true;
                written := written f ++ log_record B e m |}, record_len B)) as Hw.
  { rewrite QFile_write_full; [by rewrite Hlen|done|lia]. }
  rewrite (log_data_full B e m s f Hen Hf); rewrite Hw; [done|].
  cbn [snd]. unfold write_short.
  assert (0 <= record_len B) by lia.
  rewrite Z.mod_small by lia.
  destruct (64 <=? size_t_bits B); apply Z.ltb_irrefl.
Qed.

(** ** C8 *)

(** C8 (what the code does). When [enableLogging(true)] finds a log file
    that does not open, the warning is emitted, and the assignment at the
    end of the function sets the logging flag to true all the same; the
    file is left closed, so a later write through it stores nothing. *)
Theorem C8_failed_open_leaves_flag_set (s : State) (f : QFile) :
  m_logfile s = Some f ->
  let r := enableLogging true false s in
  protocolStatusMessage (OpenLogfileFailed (fileName f)) ∈ r.2 /\
  m_loggingEnabled r.1 = true /\
  exists f', m_logfile r.1 = Some f' /\ isOpen f' = false /\
    written f' = written f /\
    forall b accepts, QFile_write f' b accepts = (f', -1).
Proof.
  intros Hf r. subst r. unfold enableLogging. rewrite Hf.
  destruct (isOpen f) eqn:Hopen; cbn; rewrite ?Hf; cbn.
  - split; [set_solver|]. split; [done|].
    exists (QFile_close f). split; [done|]. split; [done|]. split; [done|].
    intros b accepts. by apply QFile_write_closed.
  - split; [set_solver|]. split; [done|].
    exists f. split; [done|]. split; [done|]. split; [done|].
    intros b accepts. by apply QFile_write_closed.
Qed.

(** The same on a reachable state: logging is on, a file name that does
    not open is chosen, and the object reports logging as enabled over a
    closed file. *)
Example unopened_reports_enabled :
  m_loggingEnabled Sample.unopened = true /\
  m_logfile Sample.unopened
  = Some {| fileName := "log"; isOpen := false; written := [] |}.
Proof. split; vm_compute; reflexivity. Qed.

(** * The theorems at concrete inputs *)

Lemma C1_witness :
  (run Sample.build
     [call_receiveBytes (fun _ => Sample.quiet) Sample.link0
        (Sample.to_send_buffer (Sample.heartbeat 7 1 0 2));
      call_receiveBytes (fun _ => Sample.quiet) Sample.link1
        (Sample.to_send_buffer (Sample.attitude 7 1 1))] Sample.fresh).2
  = [createUAS_called Sample.link0 7
       (Sample.heartbeat_decode (Sample.heartbeat 7 1 0 2));
     messageReceived Sample.link0 (Sample.heartbeat 7 1 0 2)]
    ++ messageReceived Sample.link1 (Sample.attitude 7 1 1) :: []
  /\ (is_Some (uasManager Sample.fresh !! 7)
      \/ exists l hb,
           createUAS_called l 7 hb
           ∈ [createUAS_called Sample.link0 7
                (Sample.heartbeat_decode (Sample.heartbeat 7 1 0 2));
              messageReceived Sample.link0 (Sample.heartbeat 7 1 0 2)]).
Proof.
  assert ((run Sample.build
     [call_receiveBytes (fun _ => Sample.quiet) Sample.link0
        (Sample.to_send_buffer (Sample.heartbeat 7 1 0 2));
      call_receiveBytes (fun _ => Sample.quiet) Sample.link1
        (Sample.to_send_buffer (Sample.attitude 7 1 1))] Sample.fresh).2
  = [createUAS_called Sample.link0 7
       (Sample.heartbeat_decode (Sample.heartbeat 7 1 0 2));
     messageReceived Sample.link0 (Sample.heartbeat 7 1 0 2)]
    ++ messageReceived Sample.link1 (Sample.attitude 7 1 1) :: []) as H
    by (vm_compute; reflexivity).
  split; [exact H|].
  exact (proj1 (C1_dispatch_after_creation Sample.build _ _ _ _ _ _ H)).
Defined.

Lemma C2_witness :
  lastIndex_at Sample.seen 7 1 = 2 /\ 0 <= 2 <= 255 /\ 0 <= 7 <= 255 /\
  totalLossCounter
    (count_message Sample.link0 (Sample.attitude 7 1 7) Sample.seen).1
  = totalLossCounter Sample.seen + (7 - 2 - 1) mod 256.
Proof.
  assert (lastIndex_at Sample.seen 7 1 = 2) as H by (vm_compute; reflexivity).
  split; [exact H|]. split; [lia|]. split; [lia|].
  exact (proj1 (C2_observe_records_gap Sample.link0 Sample.seen
                  (Sample.attitude 7 1 7) 2 H ltac:(lia) ltac:(cbn; lia))).
Defined.

Lemma C3_witness :
  totalLossCounter Sample.seen
  < totalLossCounter
      (count_message Sample.link0 (Sample.attitude 7 1 7) Sample.seen).1 /\
  currLossCounter
    (count_message Sample.link0 (Sample.attitude 7 1 7) Sample.seen).1 = 0.
Proof.
  assert (totalLossCounter Sample.seen
          < totalLossCounter
              (count_message Sample.link0 (Sample.attitude 7 1 7) Sample.seen).1)
    as H by (vm_compute; reflexivity).
  split; [exact H|].
  exact (proj1 (proj2 (proj1 (proj2
    (C3_loss_report Sample.build Sample.link0 (Sample.attitude 7 1 7) Sample.seen))
    (or_introl H)))).
Defined.


Lemma C5_witness :
  let m := Sample.heartbeat 8 1 0 3 in
  let s := Sample.awaiting_last m Sample.fresh in
  let c := List.last (Sample.to_send_buffer m) 0 in
  mavlink_parse_char Sample.build (fed s) (uint8_t (getId Sample.link0))
    (uint8_t c) = (1, m) /\
  getUASForId s (sysid m) = None /\
  m_enable_version_check s = true /\
  uasManager
    (on_decoded Sample.build Sample.quiet Sample.link0 m
       (set_fed ((uint8_t (getId Sample.link0), uint8_t c) :: fed s) s)).1
  = uasManager s.
Proof.
  cbv zeta.
  assert (mavlink_parse_char Sample.build
            (fed (Sample.awaiting_last (Sample.heartbeat 8 1 0 3) Sample.fresh))
            (uint8_t (getId Sample.link0))
            (uint8_t (List.last (Sample.to_send_buffer (Sample.heartbeat 8 1 0 3)) 0))
          = (1, Sample.heartbeat 8 1 0 3)) as H by (vm_compute; reflexivity).
  split; [exact H|]. split; [vm_compute; reflexivity|].
  split; [vm_compute; reflexivity|].
  exact (proj1 (proj1 (proj2
    (C5_version_gate Sample.build (fun _ => Sample.quiet) Sample.link0 0%nat
       _ [] _ _ H ltac:(vm_compute; reflexivity) eq_refl))
    ltac:(vm_compute; reflexivity) ltac:(vm_compute; discriminate))).
Defined.

Lemma C6_witness :
  -1 <= lastIndex_at Sample.seen 7 1 <= 255 /\ 0 <= 7 <= 255 /\
  lastIndex_at
    (count_message Sample.link0 (Sample.attitude 7 1 7) Sample.seen).1 7 1 = 7.
Proof.
  assert (-1 <= lastIndex_at Sample.seen 7 1 <= 255) as H
    by (vm_compute; split; discriminate).
  split; [exact H|]. split; [lia|].
  exact (proj2 (proj2 (proj2 (proj2 (proj2
    (C6_reconciliation_bounded Sample.link0 Sample.seen (Sample.attitude 7 1 7)
       H ltac:(cbn; lia))))))).
Defined.

Lemma C7_witness :
  Z.of_nat (length (Sample.to_send_buffer (Sample.heartbeat 7 1 0 2)))
  <= MAVLINK_MAX_PACKET_LEN Sample.build /\
  Z.of_nat (length (log_record Sample.build Sample.quiet (Sample.heartbeat 7 1 0 2)))
  = MAVLINK_MAX_PACKET_LEN Sample.build + 8.
Proof.
  assert (Z.of_nat (length (Sample.to_send_buffer (Sample.heartbeat 7 1 0 2)))
          <= MAVLINK_MAX_PACKET_LEN Sample.build) as H
    by (vm_compute; discriminate).
  split; [exact H|].
  exact (proj1 (proj2 (proj2 (proj2 (proj2
    (C7_log_record_layout Sample.build Sample.quiet (Sample.heartbeat 7 1 0 2) H)))))).
Defined.

Lemma C8_witness :
  m_logfile Sample.logging
  = Some {| fileName := "log"; isOpen := true; written := [] |} /\
  m_loggingEnabled (enableLogging true false Sample.logging).1 = true.
Proof.
  assert (m_logfile Sample.logging
          = Some {| fileName := "log"; isOpen := true; written := [] |}) as H
    by (vm_compute; reflexivity).
  split; [exact H|].
  exact (proj1 (proj2 (C8_failed_open_leaves_flag_set Sample.logging _ H))).
Defined.

Lemma C9_witness :
  getUASForId Sample.logging 9 = None /\
  msgid (Sample.attitude 9 1 0) <> MAVLINK_MSG_ID_HEARTBEAT Sample.build /\
  same_but_logging Sample.logging
    (on_decoded Sample.build Sample.quiet Sample.link0 (Sample.attitude 9 1 0)
       Sample.logging).1.
Proof.
  assert (msgid (Sample.attitude 9 1 0) <> MAVLINK_MSG_ID_HEARTBEAT Sample.build)
    as H by (vm_compute; discriminate).
  split; [reflexivity|]. split; [exact H|].
  exact (proj1 (proj2 (proj2
    (C9_stranger_dropped Sample.build Sample.quiet Sample.link0
       (Sample.attitude 9 1 0) Sample.logging eq_refl H)))).
Defined.

(** * Where the code departs from the claims as written *)

(** C7 as written fails: for a heartbeat, whose frame has 11 bytes, the
    record appended to the log file is not the timestamp followed by the
    frame; it has 271 bytes where timestamp and frame have 19. *)
Lemma C7_counterexample :
  let m := Sample.heartbeat 7 1 0 2 in
  let s' := (on_decoded Sample.build Sample.quiet Sample.link0 m Sample.logging).1 in
  let stamp := le_bytes 8 (quint64 (groundTimeUsecs Sample.quiet)) in
  exists f',
    m_logfile s' = Some f' /\
    written f' <> stamp ++ Sample.to_send_buffer m /\
    length (written f') = 271%nat /\
    length (stamp ++ Sample.to_send_buffer m) = 19%nat.
Proof.
  cbv zeta. eexists. split; [vm_compute; reflexivity|].
  split; [|split; vm_compute; reflexivity].
  intros H. apply (f_equal length) in H. vm_compute in H. discriminate.
Qed.

(** C9 as written fails: with logging on and a device that takes only
    part of the record, a message that is not a heartbeat, from a system id without a
    vehicle, has the logging-failure warning emitted and logging switched
    off while it is processed. *)
Lemma C9_counterexample :
  let m := Sample.attitude 9 1 0 in
  let r := on_decoded Sample.build Sample.disk_full Sample.link0 m Sample.logging in
  getUASForId Sample.logging (sysid m) = None /\
  msgid m <> MAVLINK_MSG_ID_HEARTBEAT Sample.build /\
  r.2 = [protocolStatusMessage (LoggingFailed "log"); loggingChanged false] /\
  m_loggingEnabled Sample.logging = true /\
  m_loggingEnabled r.1 = false /\
  m_logfile r.1 = None.
Proof.
  cbv zeta. split; [reflexivity|]. split; [vm_compute; discriminate|].
  repeat split; vm_compute; reflexivity.
Qed.

(** * Further properties of the inbound loop *)

Lemma dispatched_app e1 e2 : dispatched (e1 ++ e2) = dispatched e1 ++ dispatched e2.
Proof.
  induction e1 as [|e e1 IH]; [done|]. destruct e; cbn; by rewrite ?IH.
Qed.

Lemma dispatched_housekeeping ev : Forall housekeeping ev -> dispatched ev = [].
Proof.
  induction 1 as [|e ev He _ IH]; [done|]. destruct e as [[]| | | | | |]; done.
Qed.

Lemma dispatched_id_conflict m s : dispatched (id_conflict m s) = [].
Proof. unfold id_conflict. by destruct (_ =? _). Qed.

Lemma dispatched_count_message link m s :
  dispatched (count_message link m s).2 = [(link, m)].
Proof.
  rewrite count_message_snd, report_loss_events. by destruct (report_due _ _).
Qed.

Section Loop.
Context (B : BuildEnv).

Lemma handle_message_settings link m s :
  same_settings s (handle_message B link m s).1.
Proof.
  unfold same_settings.
  destruct (handle_message_view B link m s) as [u Hu|Hu Hm|Hu Hm Hrej Hflag
    |Hu Hm Hrej Hflag|Hu Hm Hrej hb s1]; try done.
  - destruct (count_message_frame link m s) as (_ & _ & -> & -> & -> & -> & -> & ->).
    done.
  - destruct (count_message_frame link m s1) as (_ & _ & -> & -> & -> & -> & -> & ->).
    done.
Qed.

Lemma on_decoded_fed e link m s : fed (on_decoded B e link m s).1 = fed s.
Proof.
  rewrite on_decoded_eq. cbn [fst].
  destruct (handle_message_settings link m (log_data B e m s).1)
    as (_ & _ & _ & _ & _ & ->).
  by destruct (log_data_frame B e m s) as (_ & _ & _ & _ & _ & _ & _ & _ & _ & _ & ->).
Qed.

Lemma dispatched_handle_message link m s :
  dispatched (handle_message B link m s).2
  = if accepted B m s then [(link, m)] else [].
Proof.
  unfold accepted.
  destruct (handle_message_view B link m s) as [u Hu|Hu Hm|Hu Hm Hrej Hflag
    |Hu Hm Hrej Hflag|Hu Hm Hrej hb s1]; rewrite Hu.
  - apply dispatched_count_message.
  - by destruct (Z.eqb_spec (msgid m) (MAVLINK_MSG_ID_HEARTBEAT B)).
  - rewrite dispatched_app, dispatched_id_conflict, Hrej.
    by rewrite andb_false_r.
  - rewrite dispatched_id_conflict, Hrej. by rewrite andb_false_r.
  - rewrite dispatched_app, dispatched_id_conflict. cbn [dispatched app].
    rewrite dispatched_count_message, Hrej, Hm, Z.eqb_refl. done.
Qed.

Lemma accepted_log_data e m s :
  accepted B m (log_data B e m s).1 = accepted B m s.
Proof.
  destruct (log_data_frame B e m s)
    as (_ & Hck & _ & _ & _ & _ & _ & _ & _ & Hreg & _).
  unfold accepted, version_rejected, getUASForId. by rewrite Hck, Hreg.
Qed.

Lemma dispatched_on_decoded e link m s :
  dispatched (on_decoded B e link m s).2
  = if accepted B m s then [(link, m)] else [].
Proof.
  rewrite on_decoded_eq. cbn [snd]. rewrite dispatched_app.
  rewrite dispatched_housekeeping, dispatched_handle_message, accepted_log_data;
    [done|].
  by destruct (log_data_quiet B e m s) as (_ & _ & _ & _ & _ & _ & _ & H).
Qed.

Lemma receiveBytes_from_shift env link k b : forall position s,
  receiveBytes_from B env link (position + k) b s
  = receiveBytes_from B (fun i => env (i + k)%nat) link position b s.
Proof.
  induction b as [|c b' IH]; intros position s; [done|].
  rewrite !receiveBytes_from_cons. cbv zeta.
  by rewrite <- (IH (S position)).
Qed.

Lemma receiveBytes_from_app env link b1 b2 : forall position s,
  receiveBytes_from B env link position (b1 ++ b2) s
  = let r1 := receiveBytes_from B env link position b1 s in
    let r2 := receiveBytes_from B env link (position + length b1) b2 r1.1 in
    (r2.1, r1.2 ++ r2.2).
Proof.
  induction b1 as [|c b1 IH]; intros position s.
  - cbn. rewrite Nat.add_0_r. by destruct (receiveBytes_from B env link position b2 s).
  - cbn [app]. rewrite !receiveBytes_from_cons. cbv zeta. rewrite IH. cbv zeta.
    cbn [fst snd length]. rewrite Nat.add_succ_r, app_assoc. done.
Qed.

End Loop.

(** X1. Cutting the input in two and calling [receiveBytes] once for each
    part, the second with the outside inputs of its positions, gives the
    state and the events of one call on the whole input. *)
Theorem X1_receiveBytes_chunks (B : BuildEnv) (env : nat -> Env)
    (link : LinkInterface) (b1 b2 : list Z) (s : State) :
  run B [call_receiveBytes env link b1;
         call_receiveBytes (fun i => env (i + length b1)%nat) link b2] s
  = receiveBytes B env link (b1 ++ b2) s.
Proof.
  rewrite !run_eq. cbn [run step fst snd]. unfold receiveBytes.
  rewrite receiveBytes_from_app. cbv zeta. cbn [Nat.add].
  rewrite <- (receiveBytes_from_shift B env link (length b1) b2 0).
  cbn [Nat.add]. by rewrite app_nil_r.
Qed.

(** X2. Every byte of the input is handed to the parser exactly once, in
    order, cast to [uint8_t] and on the channel of the link, whatever
    happens to the messages it completes. *)
Theorem X2_every_byte_parsed (B : BuildEnv) (env : nat -> Env)
    (link : LinkInterface) (b : list Z) (s : State) :
  fed (receiveBytes B env link b s).1
  = rev (map (fun c => (uint8_t (getId link), uint8_t c)) b) ++ fed s.
Proof.
  unfold receiveBytes. generalize 0%nat as position. revert s.
  induction b as [|c b' IH]; intros s position; [done|].
  rewrite receiveBytes_from_cons. cbv zeta. cbn [fst]. rewrite IH.
  cbn [map rev]. rewrite <- app_assoc. f_equal.
  destruct (_ =? 1); [by rewrite on_decoded_fed|done].
Qed.

(** X3. The messages dispatched by one call are, in order and each at most
    once, messages the parser completed on this input, all tagged with
    the link of the call; when the vehicle of every completed message is
    already registered, all of them are dispatched. *)
Theorem X3_dispatch_in_arrival_order (B : BuildEnv) (env : nat -> Env)
    (link : LinkInterface) (b : list Z) (s : State) :
  let decoded := decoded_from B (uint8_t (getId link)) (fed s) b in
  let out := dispatched (receiveBytes B env link b s).2 in
  out `sublist_of` map (pair link) decoded /\
  ((forall m, m ∈ decoded -> is_Some (getUASForId s (sysid m))) ->
   out = map (pair link) decoded).
Proof.
  cbv zeta. unfold receiveBytes. generalize 0%nat as position. revert s.
  induction b as [|c b' IH]; intros s position; [done|].
  rewrite receiveBytes_from_cons. cbv zeta. cbn [fst snd decoded_from].
  destruct (mavlink_parse_char B (fed s) _ _) as [decodeState m] eqn:Hparse.
  cbn [fst snd]. rewrite dispatched_app, map_app.
  set (s0 := set_fed _ s).
  destruct (decodeState =? 1) eqn:Hd.
  - specialize (IH (on_decoded B (env position) link m s0).1 (S position)).
    rewrite on_decoded_fed in IH. cbn [fed s0 set_fed] in IH.
    destruct IH as [IHs IHe]. rewrite dispatched_on_decoded. split.
    + apply sublist_app; [|exact IHs].
      destruct (accepted B m s0); [done|]. apply sublist_nil_l.
    + intros Hall.
      assert (accepted B m s0 = true) as ->.
      { unfold accepted. destruct (Hall m) as [u Hu]; [set_solver|].
        unfold getUASForId in *. cbn. by rewrite Hu. }
      rewrite IHe; [done|]. intros m' Hm'.
      destruct (Hall m') as [u Hu]; [set_solver|].
      destruct (on_decoded_registry_guard B (env position) link m s0) as [Hdom _].
      unfold getUASForId in *. apply elem_of_dom. rewrite Hdom.
      apply elem_of_union_r, elem_of_dom. cbn. by exists u.
  - specialize (IH s0 (S position)). cbn [fed s0 set_fed] in IH.
    destruct IH as [IHs IHe]. cbn [dispatched app map]. split; [exact IHs|].
    intros Hall. apply IHe. intros m' Hm'. apply Hall. exact Hm'.
Qed.

Lemma counts_dispatches_compositional : Compositional counts_dispatches.
Proof.
  split; unfold counts_dispatches.
  - intros s. cbn. lia.
  - intros s1 e1 s2 e2 s3 H1 H2. rewrite dispatched_app, length_app. lia.
  - intros s ev s' (_ & -> & _ & _ & _ & _ & _ & Hev).
    rewrite (dispatched_housekeeping ev Hev). cbn. lia.
Qed.

Lemma handle_message_counts_dispatches B link m s :
  counts_dispatches s (handle_message B link m s).2 (handle_message B link m s).1.
Proof.
  unfold counts_dispatches.
  destruct (handle_message_view B link m s) as [u Hu|Hu Hm|Hu Hm Hrej Hflag
    |Hu Hm Hrej Hflag|Hu Hm Hrej hb s1].
  - rewrite dispatched_count_message, count_message_fst.
    destruct (report_loss_keeps (totalLossCounter s) m (update_index m s))
      as (_ & -> & _).
    destruct (update_index_received m s) as [-> _]. cbn. lia.
  - cbn. lia.
  - rewrite dispatched_app, dispatched_id_conflict. cbn. lia.
  - rewrite dispatched_id_conflict. cbn. lia.
  - rewrite dispatched_app, dispatched_id_conflict. cbn [dispatched app].
    rewrite dispatched_count_message, count_message_fst.
    destruct (report_loss_keeps (totalLossCounter s1) m (update_index m s1))
      as (_ & -> & _).
    destruct (update_index_received m s1) as [-> _]. subst s1. cbn. lia.
Qed.

(** X4. Along every run of calls the lifetime received counter grows by
    exactly the number of messages dispatched: a message is counted if and
    only if it is handed to the subscribers. *)
Theorem X4_received_counts_dispatches (B : BuildEnv) (cs : list Call) (s : State) :
  totalReceiveCounter (run B cs s).1
  = totalReceiveCounter s + Z.of_nat (length (dispatched (run B cs s).2)).
Proof.
  apply (run_rel B counts_dispatches counts_dispatches_compositional
           (fun _ => True)); [done|].
  intros. apply handle_message_counts_dispatches.
Qed.

(** ** Known senders, the id conflict, the registry *)

Lemma created_list_app e1 e2 :
  created_list (e1 ++ e2) = created_list e1 ++ created_list e2.
Proof.
  induction e1 as [|e e1 IH]; [done|]. destruct e; cbn; by rewrite ?IH.
Qed.

Lemma created_list_housekeeping ev : Forall housekeeping ev -> created_list ev = [].
Proof.
  induction 1 as [|e ev He _ IH]; [done|]. destruct e as [[]| | | | | |]; done.
Qed.

Lemma created_list_id_conflict m s : created_list (id_conflict m s) = [].
Proof. unfold id_conflict. by destruct (_ =? _). Qed.

Lemma created_list_count_message link m s :
  created_list (count_message link m s).2 = [].
Proof.
  rewrite count_message_snd, report_loss_events. by destruct (report_due _ _).
Qed.

Lemma conflicts_app e1 e2 : conflicts (e1 ++ e2) = conflicts e1 ++ conflicts e2.
Proof.
  induction e1 as [|e e1 IH]; [done|].
  destruct e as [[]| | | | | |]; cbn; by rewrite ?IH.
Qed.

Lemma conflicts_housekeeping ev : Forall housekeeping ev -> conflicts ev = [].
Proof.
  induction 1 as [|e ev He _ IH]; [done|]. destruct e as [[]| | | | | |]; done.
Qed.

Lemma conflicts_id_conflict m s :
  conflicts (id_conflict m s)
  = if sysid m =? systemId s then [systemId s] else [].
Proof. unfold id_conflict. by destruct (_ =? _). Qed.

Lemma conflicts_count_message link m s : conflicts (count_message link m s).2 = [].
Proof.
  rewrite count_message_snd, report_loss_events. by destruct (report_due _ _).
Qed.

Lemma log_data_housekeeping B e m s : Forall housekeeping (log_data B e m s).2.
Proof. by destruct (log_data_quiet B e m s) as (_ & _ & _ & _ & _ & _ & _ & H). Qed.

(** X5. A message from a system id whose vehicle is registered is counted
    and dispatched once, whatever its kind and, for a heartbeat, whatever
    its version: nothing is created, the registry and the warned latch are
    as before, and the only warning possible is that of the logging
    sink. *)
Theorem X5_known_sender_dispatched (B : BuildEnv) (e : Env)
    (link : LinkInterface) (m : mavlink_message_t) (s : State) (u : UAS) :
  getUASForId s (sysid m) = Some u ->
  let r := on_decoded B e link m s in
  dispatched r.2 = [(link, m)] /\
  created_list r.2 = [] /\
  conflicts r.2 = [] /\
  version_warnings r.2 = 0%nat /\
  uasManager r.1 = uasManager s /\
  versionMismatchIgnore r.1 = versionMismatchIgnore s /\
  totalReceiveCounter r.1 = totalReceiveCounter s + 1.
Proof.
  intros Hu r. subst r. rewrite on_decoded_eq. cbn [fst snd].
  pose proof (log_data_housekeeping B e m s) as Hlog.
  destruct (log_data_frame B e m s)
    as (_ & _ & _ & Htr & _ & _ & _ & Hig & _ & Hreg & _).
  assert (getUASForId (log_data B e m s).1 (sysid m) = Some u) as Hu1.
  { unfold getUASForId in *. by rewrite Hreg. }
  rewrite dispatched_app, created_list_app, conflicts_app, version_warnings_app.
  rewrite (dispatched_housekeeping _ Hlog), (created_list_housekeeping _ Hlog),
    (conflicts_housekeeping _ Hlog), (version_warnings_housekeeping _ Hlog).
  destruct (handle_message_view B link m (log_data B e m s).1)
    as [u' _|Hu'|Hu'|Hu'|Hu']; try congruence.
  rewrite dispatched_count_message, created_list_count_message,
    conflicts_count_message, version_warnings_count_message.
  destruct (count_message_frame link m (log_data B e m s).1) as (-> & -> & _).
  rewrite count_message_fst.
  destruct (report_loss_keeps (totalLossCounter (log_data B e m s).1) m
              (update_index m (log_data B e m s).1)) as (_ & -> & _).
  destruct (update_index_received m (log_data B e m s).1) as [-> _].
  rewrite Htr. done.
Qed.

(** X6. For a heartbeat from a system id without a vehicle, the
    system-id-conflict warning is emitted exactly when the sender uses our
    own system id, and it names that id; it is emitted before the version
    gate, so also for a heartbeat the gate then discards, and a sender that
    passes the gate is created and dispatched all the same. *)
Theorem X6_system_id_conflict (B : BuildEnv) (e : Env)
    (link : LinkInterface) (m : mavlink_message_t) (s : State) :
  getUASForId s (sysid m) = None ->
  msgid m = MAVLINK_MSG_ID_HEARTBEAT B ->
  let r := on_decoded B e link m s in
  conflicts r.2 = (if sysid m =? systemId s then [systemId s] else []) /\
  (version_rejected B m s = true ->
   dispatched r.2 = [] /\ created_list r.2 = []) /\
  (version_rejected B m s = false ->
   dispatched r.2 = [(link, m)] /\ created_list r.2 = [sysid m] /\
   is_Some (uasManager r.1 !! sysid m)).
Proof.
  intros Hu Hm r. subst r. rewrite on_decoded_eq. cbn [fst snd].
  pose proof (log_data_housekeeping B e m s) as Hlog.
  destruct (log_data_frame B e m s)
    as (_ & Hck & _ & _ & _ & _ & _ & _ & Hid & Hreg & _).
  assert (getUASForId (log_data B e m s).1 (sysid m) = None) as Hu1.
  { unfold getUASForId in *. by rewrite Hreg. }
  assert (version_rejected B m (log_data B e m s).1 = version_rejected B m s)
    as Hrej1.
  { unfold version_rejected. by rewrite Hck. }
  rewrite dispatched_app, created_list_app, conflicts_app.
  rewrite (dispatched_housekeeping _ Hlog), (created_list_housekeeping _ Hlog),
    (conflicts_housekeeping _ Hlog). cbn [app].
  destruct (handle_message_view B link m (log_data B e m s).1)
    as [u' Hu'|_ Hm'|_ _ Hrej Hflag|_ _ Hrej Hflag|_ _ Hrej hb s1];
    try congruence; rewrite Hrej1 in Hrej.
  - rewrite conflicts_app, dispatched_app, created_list_app.
    rewrite conflicts_id_conflict, dispatched_id_conflict,
      created_list_id_conflict, Hid.
    split; [by rewrite app_nil_r|]. split; [done|congruence].
  - rewrite conflicts_id_conflict, dispatched_id_conflict,
      created_list_id_conflict, Hid.
    split; [done|]. split; [done|congruence].
  - rewrite conflicts_app, dispatched_app, created_list_app.
    rewrite conflicts_id_conflict, dispatched_id_conflict,
      created_list_id_conflict, Hid.
    cbn [conflicts dispatched created_list app].
    rewrite conflicts_count_message, dispatched_count_message,
      created_list_count_message.
    split; [by rewrite app_nil_r|]. split; [congruence|]. intros _.
    split; [done|]. split; [done|].
    destruct (count_message_frame link m s1) as (_ & -> & _).
    subst s1. cbn. rewrite lookup_insert_eq. by eexists.
Qed.

Lemma registry_grows_compositional : Compositional registry_grows.
Proof.
  split; unfold registry_grows.
  - intros s. cbn. split; [done|]. split; [constructor|]. set_solver.
  - intros s1 e1 s2 e2 s3 (H1 & N1 & C1) (H2 & N2 & C2).
    rewrite created_list_app. split; [auto|]. split.
    + apply NoDup_app. split; [done|]. split; [|done].
      intros k Hk1 Hk2. destruct (C1 k Hk1) as [_ [u Hu]].
      destruct (C2 k Hk2) as [Hnone _]. congruence.
    + intros k Hk. apply elem_of_app in Hk as [Hk|Hk].
      * destruct (C1 k Hk) as [Hn [u Hu]]. split; [done|].
        exists u. by apply H2.
      * destruct (C2 k Hk) as [Hn Hs]. split; [|done].
        destruct (uasManager s1 !! k) as [u|] eqn:Hu; [|done].
        apply H1 in Hu. congruence.
  - intros s ev s' (_ & _ & _ & _ & _ & _ & -> & Hev).
    rewrite (created_list_housekeeping ev Hev).
    split; [done|]. split; [constructor|]. set_solver.
Qed.

Lemma handle_message_registry_grows B link m s :
  registry_grows s (handle_message B link m s).2 (handle_message B link m s).1.
Proof.
  unfold registry_grows.
  destruct (handle_message_view B link m s) as [u Hu|Hu Hm|Hu Hm Hrej Hflag
    |Hu Hm Hrej Hflag|Hu Hm Hrej hb s1].
  - destruct (count_message_frame link m s) as (_ & -> & _).
    rewrite created_list_count_message.
    split; [done|]. split; [constructor|]. set_solver.
  - cbn. split; [done|]. split; [constructor|]. set_solver.
  - rewrite created_list_app, created_list_id_conflict. cbn.
    split; [done|]. split; [constructor|]. set_solver.
  - rewrite created_list_id_conflict.
    split; [done|]. split; [constructor|]. set_solver.
  - destruct (count_message_frame link m s1) as (_ & -> & _).
    rewrite created_list_app, created_list_id_conflict. cbn [created_list app].
    rewrite created_list_count_message. subst s1. cbn.
    unfold getUASForId in Hu. split.
    + intros k u Hk. rewrite lookup_insert_ne; [done|]. congruence.
    + split; [apply NoDup_singleton|].
      intros k Hk. apply list_elem_of_singleton in Hk as ->.
      split; [done|]. rewrite lookup_insert_eq. by eexists.
Qed.

(** X7. Along every run the registry only grows: a registered handle is
    never replaced, and [createUAS] is called at most once per system id,
    only for ids that had no vehicle, which have one afterwards. *)
Theorem X7_vehicle_created_once (B : BuildEnv) (cs : list Call) (s : State) :
  let r := run B cs s in
  (forall k u, uasManager s !! k = Some u -> uasManager r.1 !! k = Some u) /\
  NoDup (created_list r.2) /\
  (forall k, k ∈ created_list r.2 ->
     uasManager s !! k = None /\ is_Some (uasManager r.1 !! k)).
Proof.
  apply (run_rel B registry_grows registry_grows_compositional (fun _ => True));
    [done|]. intros. apply handle_message_registry_grows.
Qed.

(** ** More on the tracker *)

Lemma count_message_lastIndex link m s :
  lastIndex (count_message link m s).1 = lastIndex (update_index m s).
Proof.
  rewrite count_message_fst.
  by destruct (report_loss_keeps (totalLossCounter s) m (update_index m s)) as (-> & _).
Qed.

Lemma update_index_other m s sys comp :
  (sys, comp) <> (sysid m, compid m) ->
  lastIndex (update_index m s) !! (sys, comp) = lastIndex s !! (sys, comp).
Proof.
  intros Hne. unfold update_index.
  destruct (_ =? -1); cbn [lastIndex set_tracker]; by rewrite lookup_insert_ne.
Qed.

(** X8. Counting a message touches the stored index of its own (system id,
    component id) pair only; for a pair seen for the first time it stores
    the sequence number as it is and records no loss. *)
Theorem X8_first_observation (link : LinkInterface) (m : mavlink_message_t)
    (s : State) :
  let s' := (count_message link m s).1 in
  (forall sys comp, (sys, comp) <> (sysid m, compid m) ->
     lastIndex_at s' sys comp = lastIndex_at s sys comp) /\
  (lastIndex_at s (sysid m) (compid m) = -1 ->
   lastIndex_at s' (sysid m) (compid m) = seq m /\
   totalLossCounter s' = totalLossCounter s /\
   currLossCounter (update_index m s) = currLossCounter s).
Proof.
  cbv zeta. split.
  - intros sys comp Hne. unfold lastIndex_at.
    by rewrite count_message_lastIndex, update_index_other.
  - intros Hfirst. unfold lastIndex_at at 1.
    rewrite count_message_lastIndex, count_message_fst.
    destruct (report_loss_keeps (totalLossCounter s) m (update_index m s))
      as (_ & _ & ->).
    rewrite update_index_first by done. cbn. by rewrite lookup_insert_eq.
Qed.

(** X9. A message that repeats the sequence number stored for its pair is
    taken for a full wrap: 255 losses are recorded, the baseline stays,
    and a loss ratio is reported. *)
Theorem X9_repeated_sequence_number (link : LinkInterface)
    (m : mavlink_message_t) (s : State) :
  lastIndex_at s (sysid m) (compid m) = seq m ->
  0 <= seq m <= 255 ->
  let r := count_message link m s in
  totalLossCounter r.1 = totalLossCounter s + 255 /\
  lastIndex_at r.1 (sysid m) (compid m) = seq m /\
  exists ratio,
    r.2 = [receiveLossChanged (sysid m) ratio; messageReceived link m].
Proof.
  intros Hlast Hseq r.
  assert (update_index m s
          = set_tracker (<[(sysid m, compid m) := seq m]> (lastIndex s))
              (totalReceiveCounter s + 1) (totalLossCounter s + 255)
              (currReceiveCounter s + 1) (currLossCounter s + 255) s) as Hu.
  { rewrite update_index_seen by lia. rewrite Hlast. cbv zeta.
    rewrite reconcile_spec by done.
    replace ((seq m - seq m - 1) mod 256) with 255; [done|].
    by replace (seq m - seq m - 1) with (-1) by lia. }
  subst r. unfold lastIndex_at.
  rewrite count_message_lastIndex, count_message_fst, count_message_snd,
    report_loss_events.
  destruct (report_loss_keeps (totalLossCounter s) m (update_index m s))
    as (_ & _ & ->).
  rewrite Hu. cbn [totalLossCounter lastIndex set_tracker].
  rewrite lookup_insert_eq. split; [done|]. split; [done|].
  assert (report_due (totalLossCounter s)
            (set_tracker (<[(sysid m, compid m) := seq m]> (lastIndex s))
               (totalReceiveCounter s + 1) (totalLossCounter s + 255)
               (currReceiveCounter s + 1) (currLossCounter s + 255) s) = true)
    as ->.
  { unfold report_due. cbn [totalLossCounter set_tracker].
    destruct (Z.eqb_spec (totalLossCounter s) (totalLossCounter s + 255)); [lia|done]. }
  by eexists.
Qed.

Lemma receiveLoss_bounds lost received :
  0 <= lost -> 1 <= received ->
  (0 <= receiveLoss lost received)%Q /\ (receiveLoss lost received < 100)%Q.
Proof.
  intros Hl Hr.
  assert (receiveLoss lost received
          == (lost * 100) # (Z.to_pos (received + lost)))%Q as Heq.
  { unfold receiveLoss.
    rewrite (Qmake_Qdiv (lost * 100) (Z.to_pos (received + lost))).
    rewrite Z2Pos.id by lia. rewrite inject_Z_mult. field.
    intros H0. unfold Qeq in H0. cbn in H0. lia. }
  rewrite Heq. unfold Qle, Qlt. cbn [Qnum Qden].
  rewrite Z2Pos.id by lia. lia.
Qed.

Lemma receiveLoss_no_loss received : (receiveLoss 0 received == 0)%Q.
Proof. unfold receiveLoss. unfold Qdiv. by rewrite !Qmult_0_l. Qed.

Lemma count_message_window_tight link m s :
  window_rel s (count_message link m s).2 (count_message link m s).1.
Proof.
  intros (Hcl & Htr & Hcr).
  rewrite count_message_snd, report_loss_events, count_message_fst.
  unfold report_loss.
  destruct (update_index_received m s) as [Htr1 Hcr1].
  destruct (update_index_loss_grows m s) as [Hg Hd].
  destruct (report_due (totalLossCounter s) (update_index m s)) eqn:Hdue.
  - split.
    + unfold window_tight.
      cbn [fst totalReceiveCounter currReceiveCounter currLossCounter set_tracker].
      rewrite Htr1.
      pose proof (Z.mod_pos_bound (totalReceiveCounter s + 1) 64). lia.
    + repeat constructor; cbn;
        apply receiveLoss_bounds; lia.
  - split; [|repeat constructor].
    unfold report_due in Hdue. apply orb_false_elim in Hdue as [Hloss Hrem].
    apply negb_false_iff, Z.eqb_eq in Hloss. apply Z.eqb_neq in Hrem.
    rewrite Htr1 in Hrem. rewrite Z.rem_mod_nonneg in Hrem by lia.
    unfold window_tight. cbn [fst]. rewrite Htr1, Hcr1.
    split; [lia|]. split; [lia|].
    revert Hrem Hcr. Z.div_mod_to_equations. lia.
Qed.

Lemma window_rel_compositional : Compositional window_rel.
Proof.
  split; unfold window_rel.
  - by intros s Hs.
  - intros s1 e1 s2 e2 s3 H1 H2 Hs. destruct (H1 Hs) as [Hs2 Hf1].
    destruct (H2 Hs2) as [Hs3 Hf2]. split; [done|]. by apply Forall_app.
  - intros s ev s' (_ & Htr & _ & Hcr & Hcl & _ & _ & Hev) Hs.
    split; [unfold window_tight in *; by rewrite Htr, Hcr, Hcl|].
    eapply Forall_impl; [exact Hev|]. intros e He.
    destruct e as [[]| | | | | |]; done.
Qed.

Lemma handle_message_window_tight B link m s :
  window_rel s (handle_message B link m s).2 (handle_message B link m s).1.
Proof.
  destruct (handle_message_view B link m s) as [u Hu|Hu Hm|Hu Hm Hrej Hflag
    |Hu Hm Hrej Hflag|Hu Hm Hrej hb s1].
  - apply count_message_window_tight.
  - intros Hs. by split.
  - intros Hs. split; [done|]. apply Forall_app. split; [|repeat constructor].
    unfold id_conflict. destruct (_ =? _); repeat constructor.
  - intros Hs. split; [done|].
    unfold id_conflict. destruct (_ =? _); repeat constructor.
  - intros Hs. destruct (count_message_window_tight link m s1 Hs) as [Hs' Hf].
    split; [done|]. apply Forall_app. split.
    + unfold id_conflict. destruct (_ =? _); repeat constructor.
    + by constructor.
Qed.

Lemma new_window_tight settings open_ok registry :
  window_tight (MAVLinkProtocol_new settings open_ok registry).1.
Proof.
  unfold MAVLinkProtocol_new. destruct (loadSettings _ _ _) as [s1 e1].
  unfold window_tight.
  cbn [fst totalReceiveCounter currReceiveCounter currLossCounter set_tracker].
  change (0 mod 64) with 0. lia.
Qed.

Lemma reachable_window_tight B s : reachable B s -> window_tight s.
Proof.
  induction 1 as [settings open_ok registry|c s _ IH].
  - apply new_window_tight.
  - apply (step_rel B window_rel window_rel_compositional (fun _ => True));
      [done| |done]. intros. apply handle_message_window_tight.
Qed.

(** X10. In every state the object can reach, no windowed loss is pending
    between two messages and the windowed received counter is at most the
    lifetime received counter modulo 64: at most 63 messages wait for the
    next report. *)
Theorem X10_window_bounded (B : BuildEnv) (s : State) :
  reachable B s ->
  currLossCounter s = 0 /\
  0 <= currReceiveCounter s <= totalReceiveCounter s mod 64 /\
  currReceiveCounter s <= 63 /\
  0 <= totalReceiveCounter s.
Proof.
  intros Hs. destruct (reachable_window_tight B s Hs) as (Hcl & Htr & Hcr).
  pose proof (Z.mod_pos_bound (totalReceiveCounter s) 64). lia.
Qed.

(** ** The report stage along a run *)

Lemma loss_reports_app e1 e2 :
  loss_reports (e1 ++ e2) = loss_reports e1 ++ loss_reports e2.
Proof.
  induction e1 as [|e e1 IH]; [done|]. destruct e; cbn; by rewrite ?IH.
Qed.

Lemma loss_reports_housekeeping ev : Forall housekeeping ev -> loss_reports ev = [].
Proof.
  induction 1 as [|e ev He _ IH]; [done|]. destruct e as [[]| | | | | |]; done.
Qed.

Lemma loss_reports_id_conflict m s : loss_reports (id_conflict m s) = [].
Proof. unfold id_conflict. by destruct (_ =? _). Qed.

Lemma loss_reports_count_message link m s :
  loss_reports (count_message link m s).2
  = (report_loss (totalLossCounter s) m (update_index m s)).2.
Proof.
  rewrite count_message_snd, loss_reports_app, report_loss_events.
  destruct (report_due _ _); done.
Qed.

Lemma createUAS_window_tight link sys hb s :
  window_tight s -> window_tight (createUAS link sys hb s).1.
Proof. done. Qed.

(** The report stage of one message: not reached, or reached once, from
    the state the lookup found or the one [createUAS] left. *)
Lemma report_calls_message_cases B link m s :
  (report_calls_message B link m s = []
   /\ loss_reports (handle_message B link m s).2 = [])
  \/ exists s1,
       (s1 = s \/ exists hb, s1 = (createUAS link (sysid m) hb s).1) /\
       report_calls_message B link m s
       = [{| call_lastLoss := totalLossCounter s1; call_message := m;
             call_state := update_index m s1 |}] /\
       loss_reports (handle_message B link m s).2
       = (report_loss (totalLossCounter s1) m (update_index m s1)).2.
Proof.
  unfold report_calls_message, handle_message, resolve_or_create.
  destruct (getUASForId s (sysid m)) as [u|] eqn:Hu.
  - rewrite bool_decide_eq_false_2 by done. cbn [andb].
    right. exists s. split; [by left|]. split; [done|].
    pose proof (loss_reports_count_message link m s) as H.
    by destruct (count_message link m s).
  - rewrite bool_decide_eq_true_2 by done. cbn [andb].
    destruct (msgid m =? MAVLINK_MSG_ID_HEARTBEAT B); [|by left].
    destruct (version_rejected B m s).
    + left. destruct (versionMismatchIgnore s); cbn [negb snd]; split; try done.
      * apply loss_reports_id_conflict.
      * by rewrite loss_reports_app, loss_reports_id_conflict.
    + right. unfold createUAS. cbn [fst snd].
      eexists. split; [right; by eexists|]. split; [done|].
      match goal with
      | |- context [count_message link m ?s1] =>
          pose proof (loss_reports_count_message link m s1) as H;
          destruct (count_message link m s1)
      end.
      cbn [snd] in *. rewrite loss_reports_app, loss_reports_app,
        loss_reports_id_conflict. exact H.
Qed.

Section ReportStage.
Context (B : BuildEnv).

Lemma report_calls_message_spec link m s :
  loss_reports (handle_message B link m s).2
  = flat_map (fun c => (report_of c).2) (report_calls_message B link m s)
  /\ (window_tight s ->
      Forall counted_in_window (report_calls_message B link m s)).
Proof.
  destruct (report_calls_message_cases B link m s)
    as [[-> ->]|(s1 & Hs1 & -> & ->)].
  - split; [done|]. by constructor.
  - split; [cbn [flat_map]; by rewrite app_nil_r|].
    intros Hs. constructor; [|constructor]. exists s1.
    split; [|done]. destruct Hs1 as [->|[hb ->]]; [done|].
    by apply createUAS_window_tight.
Qed.

Lemma log_data_window_tight e m s :
  window_tight s -> window_tight (log_data B e m s).1.
Proof.
  destruct (log_data_frame B e m s)
    as (_ & _ & _ & Htr & _ & Hcr & Hcl & _).
  unfold window_tight. by rewrite Htr, Hcr, Hcl.
Qed.

Lemma report_calls_decoded_spec e link m s :
  loss_reports (on_decoded B e link m s).2
  = flat_map (fun c => (report_of c).2) (report_calls_decoded B e link m s)
  /\ (window_tight s ->
      Forall counted_in_window (report_calls_decoded B e link m s)).
Proof.
  unfold report_calls_decoded. rewrite on_decoded_eq. cbn [snd].
  rewrite loss_reports_app,
    (loss_reports_housekeeping _ (log_data_housekeeping B e m s)).
  destruct (report_calls_message_spec link m (log_data B e m s).1) as [-> Hw].
  split; [done|]. intros Hs. by apply Hw, log_data_window_tight.
Qed.

Lemma on_decoded_window_tight e link m s :
  window_tight s -> window_tight (on_decoded B e link m s).1.
Proof.
  intros Hs.
  by destruct (on_decoded_rel B window_rel window_rel_compositional
                 (fun _ => True)
                 ltac:(intros; apply handle_message_window_tight)
                 e link m s I Hs).
Qed.

Lemma report_calls_from_spec env link b : forall position s,
  loss_reports (receiveBytes_from B env link position b s).2
  = flat_map (fun c => (report_of c).2) (report_calls_from B env link position b s)
  /\ (window_tight s ->
      Forall counted_in_window (report_calls_from B env link position b s)).
Proof.
  induction b as [|c b' IH]; intros position s.
  - split; [done|]. by constructor.
  - rewrite receiveBytes_from_cons. cbv zeta. cbn [fst snd report_calls_from].
    destruct (mavlink_parse_char B (fed s) _ _) as [decodeState m].
    cbn [fst snd]. set (s0 := set_fed _ s).
    assert (window_tight s -> window_tight s0) as H0 by done.
    rewrite loss_reports_app. destruct (decodeState =? 1); cbn [fst snd loss_reports app].
    + destruct (report_calls_decoded_spec (env position) link m s0) as [-> Hw].
      destruct (IH (S position) (on_decoded B (env position) link m s0).1)
        as [-> Hw'].
      rewrite flat_map_app. split; [done|]. intros Hs. apply Forall_app. split.
      * by apply Hw, H0.
      * by apply Hw', on_decoded_window_tight, H0.
    + destruct (IH (S position) s0) as [-> Hw']. split; [done|].
      intros Hs. by apply Hw', H0.
Qed.

Lemma step_window_tight c s : window_tight s -> window_tight (step B c s).1.
Proof.
  intros Hs.
  by destruct (step_rel B window_rel window_rel_compositional (fun _ => True)
                 ltac:(done) ltac:(intros; apply handle_message_window_tight)
                 c s Hs).
Qed.

Lemma report_calls_spec cs : forall s,
  loss_reports (run B cs s).2
  = flat_map (fun c => (report_of c).2) (report_calls B cs s)
  /\ (window_tight s -> Forall counted_in_window (report_calls B cs s)).
Proof.
  induction cs as [|c cs IH]; intros s.
  - split; [done|]. by constructor.
  - rewrite run_eq. cbn [fst snd report_calls].
    rewrite loss_reports_app, flat_map_app.
    destruct (IH (step B c s).1) as [-> Hw'].
    assert (loss_reports (step B c s).2
            = flat_map (fun c0 => (report_of c0).2)
                match c with
                | call_receiveBytes env link b => report_calls_from B env link 0 b s
                | _ => []
                end
            /\ (window_tight s ->
                Forall counted_in_window
                  match c with
                  | call_receiveBytes env link b =>
                      report_calls_from B env link 0 b s
                  | _ => []
                  end)) as [-> Hw].
    { destruct c as [env link b|enabled open_ok|filename open_ok|enabled|enabled|id];
        cbn [step].
      - apply report_calls_from_spec.
      - split; [|by constructor]. apply loss_reports_housekeeping.
        by destruct (enableLogging_quiet enabled open_ok s)
          as (_ & _ & _ & _ & _ & _ & _ & H).
      - split; [|by constructor]. apply loss_reports_housekeeping.
        by destruct (setLogfileName_quiet filename open_ok s)
          as (_ & _ & _ & _ & _ & _ & _ & H).
      - split; [done|by constructor].
      - split; [done|by constructor].
      - split; [done|by constructor]. }
    split; [done|]. intros Hs. apply Forall_app. split; [by apply Hw|].
    by apply Hw', step_window_tight.
Qed.

End ReportStage.

Lemma counted_denominator c : counted_in_window c -> denominator_positive c.
Proof.
  intros (s & (Hcl & Htr & Hcr) & Hll & Hst). unfold denominator_positive.
  cbv zeta. unfold report_of. rewrite Hst.
  destruct (update_index_received (call_message c) s) as [_ Hcr1].
  destruct (update_index_loss_grows (call_message c) s) as [Hg Hd].
  assert (1 <= currReceiveCounter (update_index (call_message c) s)) by lia.
  assert (0 <= currLossCounter (update_index (call_message c) s)) by lia.
  split; [done|]. split; [done|]. split; [lia|]. split.
  - intros Hz. unfold Qeq in Hz. cbn in Hz. lia.
  - intros Hdue. by rewrite report_loss_events, Hdue.
Qed.

Lemma counted_ratio c : counted_in_window c -> ratio_of_this_message c.
Proof.
  intros (s & (Hcl & Htr & Hcr) & Hll & Hst). unfold ratio_of_this_message.
  cbv zeta. unfold report_of. rewrite Hst, Hll.
  set (m := call_message c).
  pose proof (Z.mod_pos_bound (totalReceiveCounter s) 64) as Hmod.
  destruct (update_index_received m s) as [Htr1 Hcr1].
  destruct (update_index_loss_grows m s) as [Hg Hd].
  split; [lia|]. split; [lia|]. split; [lia|].
  intros sys ratio Hin. rewrite report_loss_events in Hin.
  destruct (report_due _ _) eqn:Hdue; [|set_solver].
  assert (sys = sysid m /\
          ratio = receiveLoss (currLossCounter (update_index m s))
                    (currReceiveCounter (update_index m s))) as [-> ->]
    by set_solver.
  assert (currLossCounter (update_index m s)
          = totalLossCounter (update_index m s) - totalLossCounter s) as ->
    by lia.
  split; [done|]. split.
  - unfold receiveLoss. rewrite inject_Z_plus.
    by rewrite (Qplus_comm (inject_Z (currReceiveCounter (update_index m s)))).
  - intros H0. rewrite H0. split; [apply receiveLoss_no_loss|].
    apply report_due_spec in Hdue; [|done].
    destruct Hdue as [Hlt|Hdiv]; [lia|done].
Qed.

(** ** C10 *)

(** C10. Along every run of calls on a constructed object, each time the
    report stage of [receiveBytes] runs (on the state in the middle of the
    call, with the completing byte fed and the counters of this message
    updated) the windowed received counter has been incremented and the
    windowed received plus windowed lost is at least 1, so the quotient of
    the loss ratio never has a zero denominator; the loss-ratio
    notifications of the run are exactly those of these runs of the report
    stage, each carrying the quotient over these counters. *)
Theorem C10_denominator_positive (B : BuildEnv) (cs : list Call)
    (settings : QSettings) (open_ok : bool) (registry : gmap Z UAS) :
  let s0 := (MAVLinkProtocol_new settings open_ok registry).1 in
  let calls := report_calls B cs s0 in
  loss_reports (run B cs s0).2 = flat_map (fun c => (report_of c).2) calls /\
  Forall denominator_positive calls.
Proof.
  cbv zeta.
  destruct (report_calls_spec B cs (MAVLinkProtocol_new settings open_ok registry).1)
    as [Hev Hw].
  split; [exact Hev|].
  eapply Forall_impl; [apply Hw, new_window_tight|]. apply counted_denominator.
Qed.

(** X11. Along every run of calls on a constructed object, each time the
    report stage runs, in the middle of a call of [receiveBytes], the
    ratio it reports is that of the losses of this very message over them
    plus the messages received since the last report, of which there are
    between 1 and 64; a report that is due only to the 64-message cadence
    therefore reports 0.  The loss-ratio notifications of the run are
    exactly those of these runs of the report stage. *)
Theorem X11_reported_ratio (B : BuildEnv) (cs : list Call)
    (settings : QSettings) (open_ok : bool) (registry : gmap Z UAS) :
  let s0 := (MAVLinkProtocol_new settings open_ok registry).1 in
  let calls := report_calls B cs s0 in
  loss_reports (run B cs s0).2 = flat_map (fun c => (report_of c).2) calls /\
  Forall ratio_of_this_message calls.
Proof.
  cbv zeta.
  destruct (report_calls_spec B cs (MAVLinkProtocol_new settings open_ok registry).1)
    as [Hev Hw].
  split; [exact Hev|].
  eapply Forall_impl; [apply Hw, new_window_tight|]. apply counted_ratio.
Qed.

(** X12. Every loss ratio reported during the lifetime of the object is at
    least 0 and below 100. *)
Theorem X12_ratio_in_range (B : BuildEnv) (cs : list Call)
    (settings : QSettings) (open_ok : bool) (registry : gmap Z UAS)
    (sys : Z) (ratio : Q) :
  receiveLossChanged sys ratio
  ∈ (run B cs (MAVLinkProtocol_new settings open_ok registry).1).2 ->
  (0 <= ratio)%Q /\ (ratio < 100)%Q.
Proof.
  intros Hin.
  pose proof (run_rel B window_rel window_rel_compositional (fun _ => True)
                ltac:(done)
                ltac:(intros; apply handle_message_window_tight) cs
                (MAVLinkProtocol_new settings open_ok registry).1
                (new_window_tight settings open_ok registry)) as [_ Hall].
  rewrite Forall_forall in Hall. exact (Hall _ Hin).
Qed.

(** ** The logging sink when the write fails *)

(** X13. When the device takes fewer bytes than the record has, the
    failure warning and [loggingChanged(false)] are emitted, logging goes
    off and the file object is dropped; the message then goes through
    admission and dispatch as with logging off, and no later frame is
    logged. *)
Theorem X13_short_write_disables_logging (B : BuildEnv) (e : Env)
    (link : LinkInterface) (m : mavlink_message_t) (s : State) (f : QFile) :
  m_loggingEnabled s = true -> m_logfile s = Some f -> isOpen f = true ->
  0 <= device_accepts e < record_len B ->
  let off := set_loggingEnabled false (set_logfile None s) in
  let r := on_decoded B e link m s in
  r = ((handle_message B link m off).1,
       [protocolStatusMessage (LoggingFailed (fileName f)); loggingChanged false]
       ++ (handle_message B link m off).2) /\
  m_loggingEnabled r.1 = false /\ m_logfile r.1 = None /\
  (forall e' m', log_data B e' m' r.1 = (r.1, [])).
Proof.
  intros Hen Hf Hopen Hacc off r.
  assert (log_data B e m s
          = (off, [protocolStatusMessage (LoggingFailed (fileName f));
                   loggingChanged false])) as Hlog.
  { unfold log_data. rewrite Hen, Hf. unfold QFile_write. rewrite Hopen.
    destruct (Z.ltb_spec (device_accepts e) 0); [lia|].
    set (n := Z.min _ _).
    assert (0 <= n <= device_accepts e) as Hn by (subst n; lia).
    assert (write_short B n = true) as ->.
    { unfold write_short. pose proof (Z.mod_le n (2 ^ 64)) as Hmod.
      pose proof (Z.mod_pos_bound n (2 ^ 64)) as Hpos.
      destruct (64 <=? size_t_bits B); apply Z.ltb_lt; lia. }
    unfold enableLogging. cbn. by rewrite Hen. }
  assert (r = ((handle_message B link m off).1,
       [protocolStatusMessage (LoggingFailed (fileName f)); loggingChanged false]
       ++ (handle_message B link m off).2)) as Hr.
  { subst r. by rewrite on_decoded_eq, Hlog. }
  destruct (handle_message_settings B link m off) as (_ & Hl & Hfile & _).
  split; [done|]. rewrite Hr. cbn [fst]. rewrite Hl, Hfile.
  split; [done|]. split; [done|].
  intros e' m'. apply log_data_off. by rewrite Hl.
Qed.

(** X14. A write that returns -1 (the file is not open, or the device
    reports an error) is compared as an unsigned number where [size_t]
    has 64 bits: it is not taken for a failure, nothing is emitted and
    logging stays on over the same file.  Where [size_t] has fewer bits
    the comparison is signed and logging is switched off with the
    warning. *)
Theorem X14_write_error_and_size_t (B : BuildEnv) (e : Env)
    (m : mavlink_message_t) (s : State) (f : QFile) :
  m_loggingEnabled s = true -> m_logfile s = Some f ->
  isOpen f = false \/ device_accepts e < 0 ->
  0 <= record_len B < 2 ^ 64 ->
  let r := log_data B e m s in
  (64 <= size_t_bits B ->
   r.2 = [] /\ m_loggingEnabled r.1 = true /\ m_logfile r.1 = Some f) /\
  (size_t_bits B < 64 ->
   r.2 = [protocolStatusMessage (LoggingFailed (fileName f)); loggingChanged false]
   /\ m_loggingEnabled r.1 = false /\ m_logfile r.1 = None).
Proof.
  intros Hen Hf Hfail Hlen r.
  assert (QFile_write f (log_record B e m) (device_accepts e) = (f, -1)) as Hw.
  { unfold QFile_write. destruct (isOpen f); [|done].
    destruct Hfail as [?|Hneg]; [done|].
    by destruct (Z.ltb_spec (device_accepts e) 0); [|lia]. }
  subst r. unfold log_data. rewrite Hen, Hf, Hw. unfold write_short.
  change (-1 mod 2 ^ 64) with (2 ^ 64 - 1).
  split; intros Hbits.
  - destruct (Z.leb_spec 64 (size_t_bits B)); [|lia].
    destruct (Z.ltb_spec (2 ^ 64 - 1) (record_len B)); [lia|]. done.
  - destruct (Z.leb_spec 64 (size_t_bits B)); [lia|].
    destruct (Z.ltb_spec (-1) (record_len B)); [|lia].
    unfold enableLogging. cbn. by rewrite Hen.
Qed.

(** ** enableLogging and setLogfileName *)

(** X15. [enableLogging(false)] always leaves logging off and no file
    object, emits [loggingChanged(false)] only when logging was on, and a
    second call changes nothing and emits nothing. *)
Theorem X15_disable_logging (open_ok open_ok' : bool) (s : State) :
  let r := enableLogging false open_ok s in
  m_loggingEnabled r.1 = false /\
  m_logfile r.1 = None /\
  r.2 = (if m_loggingEnabled s then [loggingChanged false] else []) /\
  enableLogging false open_ok' r.1 = (r.1, []).
Proof.
  cbv zeta. unfold enableLogging.
  destruct (m_logfile s) eqn:Hf, (m_loggingEnabled s) eqn:Hen; cbn;
    rewrite ?Hf; done.
Qed.

(** X16. [setLogfileName] keeps the name only while logging is on: with
    logging off the file object it sets up is deleted again, so
    [getLogfileName] answers the default path; with logging on the name is
    taken, the file is open if it opens, and if it does not open the
    warning is emitted while logging stays reported as on. *)
Theorem X16_setLogfileName (filename home : string) (open_ok : bool) (s : State) :
  let r := setLogfileName filename open_ok s in
  m_loggingEnabled r.1 = m_loggingEnabled s /\
  (m_loggingEnabled s = false ->
   m_logfile r.1 = None /\ r.2 = [] /\
   getLogfileName home r.1 = home +:+ "/qgrouncontrol_packetlog.mavlink") /\
  (m_loggingEnabled s = true ->
   getLogfileName home r.1 = filename /\
   (isOpen <$> m_logfile r.1) = Some open_ok /\
   r.2 = (if open_ok then []
          else [protocolStatusMessage (OpenLogfileFailed filename)])).
Proof.
  cbv zeta. unfold setLogfileName, enableLogging, getLogfileName.
  destruct open_ok, (m_loggingEnabled s) eqn:Hen, (m_logfile s) as [f|] eqn:Hf;
    cbn; rewrite ?Hen; cbn; (split; [done|]); split; intros; done.
Qed.

(** ** Settings *)

(** X17. The system id of a freshly constructed object is always between
    1 and 255: a stored id is taken only if it is, and otherwise the
    default stays. *)
Theorem X17_constructed_system_id (settings : QSettings) (open_ok : bool)
    (registry : gmap Z UAS) :
  let s := (MAVLinkProtocol_new settings open_ok registry).1 in
  1 <= systemId s <= 255 /\
  (forall id, GCS_SYSTEM_ID settings = Some id -> 0 < id < 256 -> systemId s = id) /\
  (forall id, GCS_SYSTEM_ID settings = Some id -> ~ 0 < id < 256 ->
     systemId s = defaultSystemId) /\
  (GCS_SYSTEM_ID settings = None -> systemId s = defaultSystemId).
Proof.
  cbv zeta. unfold MAVLinkProtocol_new.
  destruct (loadSettings _ _ _) as [s1 e1] eqn:Hload. cbn [fst].
  change (systemId (set_tracker ∅ 0 0 0 0 s1)) with (systemId s1).
  unfold loadSettings in Hload. cbn in Hload.
  match type of Hload with
  | context [enableLogging ?en ?ok ?s0] =>
      pose proof (enableLogging_frame en ok s0) as Hq;
      destruct (enableLogging en ok s0) as [s4 e4]
  end.
  destruct Hq as (_ & _ & _ & _ & _ & _ & _ & _ & Hid & _). cbn [fst] in Hid.
  assert (systemId s4 = defaultSystemId) as H4.
  { rewrite Hid. by destruct (LOGFILE_NAME settings). }
  clear Hid. injection Hload as <- _. unfold defaultSystemId in *.
  destruct (GCS_SYSTEM_ID settings) as [n|]; cbv [default from_option id].
  - destruct (Z.ltb_spec 0 n), (Z.ltb_spec n 256); cbn [andb];
      cbn [systemId set_systemId]; rewrite ?H4;
      (split; [lia|]); (split; [intros ? [= <-] ?; lia|]);
      (split; [intros ? [= <-] ?; lia|]); done.
  - rewrite H4. change ((0 <? 255) && (255 <? 256)) with true.
    cbn [systemId set_systemId]. by repeat split.
Qed.

(** X18. Destroying the object and constructing a new one from the
    settings it stored brings back the heartbeat, version-check and logging
    flags, and the system id when it is between 1 and 255 (the default
    otherwise).  The log file comes back, under the stored name, only with
    logging on; without a file object the name stored earlier is left in
    the settings.  The counters and the sequence table start afresh. *)
Theorem X18_settings_round_trip (s : State) (old : QSettings) (open_ok : bool)
    (registry : gmap Z UAS) :
  let stored := (MAVLinkProtocol_delete s old).1 in
  let s' := (MAVLinkProtocol_new stored open_ok registry).1 in
  m_heartbeatsEnabled s' = m_heartbeatsEnabled s /\
  m_enable_version_check s' = m_enable_version_check s /\
  m_loggingEnabled s' = m_loggingEnabled s /\
  systemId s' = (if (0 <? systemId s) && (systemId s <? 256)
                 then systemId s else defaultSystemId) /\
  LOGFILE_NAME stored
  = match m_logfile s with
    | Some f => Some (fileName f)
    | None => LOGFILE_NAME old
    end /\
  (fileName <$> m_logfile s')
  = (if m_loggingEnabled s then LOGFILE_NAME stored else None) /\
  totalReceiveCounter s' = 0 /\ totalLossCounter s' = 0 /\ lastIndex s' = ∅.
Proof.
  cbv zeta. unfold MAVLinkProtocol_delete, MAVLinkProtocol_new, loadSettings,
    storeSettings, enableLogging, enableVersionCheck, enableHeartbeats.
  cbn [fst snd HEARTBEATS_ENABLED VERION_CHECK_ENABLED LOGFILE_NAME
       LOGGING_ENABLED GCS_SYSTEM_ID].
  cbv [default from_option id].
  destruct (m_loggingEnabled s), (m_logfile s) as [f|],
    (LOGFILE_NAME old) as [name|], open_ok,
    ((0 <? systemId s) && (systemId s <? 256)); cbn; done.
Qed.

(** ** The outbound path *)

(** X19. [sendMessage] on one link writes nothing to a link that is not
    connected, and to a connected link exactly the bytes of the frame, with
    no padding, whatever the buffer held before; the header is rewritten
    for the link unless the link's id is 0. *)
Theorem X19_sendMessage_on_link (B : BuildEnv) (O : OutboundEnv)
    (garbage : list Z) (link : LinkInterface) (message : mavlink_message_t)
    (s : State) :
  let frame := mavlink_msg_to_send_buffer B (for_link O link message s) in
  (isConnected link = false -> sendMessage_on B O garbage link message s = []) /\
  (isConnected link = true ->
   Z.of_nat (length frame) <= MAVLINK_MAX_PACKET_LEN B ->
   sendMessage_on B O garbage link message s = [(link, frame)]) /\
  (getId link = 0 -> for_link O link message s = message).
Proof.
  cbv zeta. unfold sendMessage_on. split; [by intros ->|]. split.
  - intros -> Hfit. rewrite blit_fits.
    + rewrite take_0, app_nil_l. by rewrite take_app_length.
    + rewrite length_uninitialised. cbn. lia.
  - intros H0. unfold for_link. by rewrite H0.
Qed.

Lemma sendMessage_from_links B O garbage links message s : forall i,
  map fst (sendMessage_from B O garbage i links message s)
  = filter (fun l => isConnected l = true) links.
Proof.
  induction links as [|l links IH]; intros i; [done|].
  cbn [sendMessage_from]. rewrite map_app, IH. unfold sendMessage_on.
  destruct (isConnected l) eqn:Hc.
  - by rewrite filter_cons_True.
  - rewrite filter_cons_False; [done|]. by rewrite Hc.
Qed.

Lemma sendMessage_from_frames B O garbage links message s : forall i,
  (forall l, l ∈ links ->
     Z.of_nat (length (mavlink_msg_to_send_buffer B (for_link O l message s)))
     <= MAVLINK_MAX_PACKET_LEN B) ->
  sendMessage_from B O garbage i links message s
  = map (fun l => (l, mavlink_msg_to_send_buffer B (for_link O l message s)))
      (filter (fun l => isConnected l = true) links).
Proof.
  induction links as [|l links IH]; intros i Hfit; [done|].
  cbn [sendMessage_from]. rewrite IH by (intros; apply Hfit; set_solver).
  destruct (isConnected l) eqn:Hc.
  - rewrite filter_cons_True by done. cbn [map].
    unfold sendMessage_on. rewrite Hc. rewrite blit_fits.
    + rewrite take_0, app_nil_l. by rewrite take_app_length.
    + rewrite length_uninitialised. cbn.
      specialize (Hfit l ltac:(set_solver)). lia.
  - rewrite filter_cons_False by (by rewrite Hc).
    unfold sendMessage_on. by rewrite Hc.
Qed.

(** X20. The broadcast form of [sendMessage] writes once to every
    connected link, in the order of the list, and never to a link that is
    not connected; when the frames fit the buffer, each link gets the frame
    of the message as rewritten for that link. *)
Theorem X20_sendMessage_broadcast (B : BuildEnv) (O : OutboundEnv)
    (garbage : nat -> list Z) (links : list LinkInterface)
    (message : mavlink_message_t) (s : State) :
  let writes := sendMessage B O garbage links message s in
  let connected := filter (fun l => isConnected l = true) links in
  map fst writes = connected /\
  ((forall l, l ∈ links ->
      Z.of_nat (length (mavlink_msg_to_send_buffer B (for_link O l message s)))
      <= MAVLINK_MAX_PACKET_LEN B) ->
   writes
   = map (fun l => (l, mavlink_msg_to_send_buffer B (for_link O l message s)))
       connected).
Proof.
  cbv zeta. unfold sendMessage. split.
  - apply sendMessage_from_links.
  - apply sendMessage_from_frames.
Qed.

(** X21. With heartbeats disabled [sendHeartbeat] writes nothing; once
    enabled, it broadcasts the heartbeat packed with the local system id
    cast to 8 bits and the fixed component id, one write per connected
    link. *)
Theorem X21_sendHeartbeat (B : BuildEnv) (O : OutboundEnv)
    (garbage : nat -> list Z) (links : list LinkInterface) (id : Z) (s : State) :
  let off := (enableHeartbeats false s).1 in
  let on := setSystemId id (enableHeartbeats true s).1 in
  let beat :=
    mavlink_msg_heartbeat_pack O (id mod 256) (defaultComponentId O mod 256)
      (OCU O) (MAV_AUTOPILOT_GENERIC O) in
  sendHeartbeat B O garbage links off = [] /\
  sendHeartbeat B O garbage links on = sendMessage B O garbage links beat on /\
  map fst (sendHeartbeat B O garbage links on)
  = filter (fun l => isConnected l = true) links.
Proof.
  cbv zeta. split; [done|]. split; [done|].
  unfold sendHeartbeat. cbn [m_heartbeatsEnabled setSystemId set_systemId
    enableHeartbeats set_heartbeatsEnabled fst].
  apply sendMessage_from_links.
Qed.

(** ** The heartbeat timer *)

(** X22. [setHeartbeatRate] has no result for a rate of 0 (the interval is
    a division by the rate); for a rate from 1 to 1000 the interval is
    between 1 and 1000 ms and is the largest whose multiple by the rate
    stays within one second; for a rate above 1000 the interval is 0. *)
Theorem X22_setHeartbeatRate (rate : Z) :
  (setHeartbeatRate rate = None <-> rate = 0) /\
  (forall t, setHeartbeatRate rate = Some t ->
     getHeartbeatRate t = rate /\
     (1 <= rate <= 1000 ->
      1 <= interval t <= 1000 /\
      interval t * rate <= 1000 < (interval t + 1) * rate) /\
     (1000 < rate -> interval t = 0)).
Proof.
  unfold setHeartbeatRate. destruct (Z.eqb_spec rate 0) as [->|Hne].
  - split; [done|]. by intros t.
  - split; [split; [done|lia]|]. intros t [= <-]. cbn [getHeartbeatRate
      heartbeatRate interval]. split; [done|]. split.
    + intros Hr. rewrite Z.quot_div_nonneg by lia.
      pose proof (Z.div_mod 1000 rate Hne) as Hdm.
      pose proof (Z.mod_pos_bound 1000 rate ltac:(lia)) as Hmod.
      assert (1 <= 1000 / rate) by (apply Z.div_le_lower_bound; lia).
      assert (1000 / rate <= 1000) by (apply Z.div_le_upper_bound; lia).
      nia.
    + intros Hr. apply Z.quot_small. lia.
Qed.

(** ** What receiveBytes leaves alone, and what it logs *)

Lemma settings_kept_refl s : settings_kept s s.
Proof. unfold settings_kept. repeat split; auto. Qed.

Lemma settings_kept_trans s1 s2 s3 :
  settings_kept s1 s2 -> settings_kept s2 s3 -> settings_kept s1 s3.
Proof.
  unfold settings_kept.
  intros (H1 & H2 & H3 & H4 & H5) (K1 & K2 & K3 & K4 & K5).
  split; [congruence|]. split; [congruence|]. split; [congruence|]. split.
  - destruct K4 as [K4|K4]; [|by right]. rewrite K4. exact H4.
  - destruct K5 as [K5|[K5 K5']]; [by left|].
    destruct H5 as [H5|[H5 H5']].
    + left. rewrite H5 in K5. by destruct (m_logfile s3).
    + right. split; congruence.
Qed.

Lemma log_data_settings_kept B e m s :
  settings_kept s (log_data B e m s).1 /\ Forall inbound_event (log_data B e m s).2.
Proof.
  destruct (log_data_frame B e m s) as (H1 & H2 & _ & _ & _ & _ & _ & _ & H3 & _).
  unfold settings_kept. rewrite H1, H2, H3.
  unfold log_data, QFile_write, enableLogging.
  destruct (m_loggingEnabled s) eqn:Hen; [|repeat split; auto].
  destruct (m_logfile s) as [f|] eqn:Hf; [|repeat split; auto].
  destruct (isOpen f) eqn:Hopen; [destruct (device_accepts e <? 0)|];
    cbn [fst snd]; destruct (write_short B _); cbn; rewrite ?Hf, ?Hen, ?Hopen;
    cbn; repeat split; auto; repeat constructor.
Qed.

Lemma handle_message_inbound B link m s :
  Forall inbound_event (handle_message B link m s).2.
Proof.
  assert (Forall inbound_event (id_conflict m s)) as Hc.
  { unfold id_conflict. destruct (_ =? _); repeat constructor. }
  assert (forall s0, Forall inbound_event (count_message link m s0).2) as Hcm.
  { intros s0. rewrite count_message_snd, report_loss_events.
    destruct (report_due _ _); repeat constructor. }
  destruct (handle_message_view B link m s); try done.
  - apply Forall_app. split; [done|repeat constructor].
  - apply Forall_app. split; [done|]. by constructor.
Qed.

Lemma on_decoded_settings_kept B e link m s :
  settings_kept s (on_decoded B e link m s).1
  /\ Forall inbound_event (on_decoded B e link m s).2.
Proof.
  rewrite on_decoded_eq. cbn [fst snd].
  destruct (log_data_settings_kept B e m s) as [Hk Hev].
  destruct (handle_message_settings B link m (log_data B e m s).1)
    as (H1 & H2 & H3 & H4 & H5 & _).
  split.
  - eapply settings_kept_trans; [exact Hk|].
    unfold settings_kept. rewrite H1, H2, H3, H4, H5. repeat split; auto.
  - apply Forall_app. split; [done|apply handle_message_inbound].
Qed.

(** X23. A call of [receiveBytes] never changes the heartbeat flag, the
    version-check flag or the local system id; it can switch logging off
    but never on, and can drop the log file but never rename, open or
    close it; and it emits none of the setters' signals. *)
Theorem X23_receiveBytes_keeps_settings (B : BuildEnv) (env : nat -> Env)
    (link : LinkInterface) (b : list Z) (s : State) :
  let r := receiveBytes B env link b s in
  m_heartbeatsEnabled r.1 = m_heartbeatsEnabled s /\
  m_enable_version_check r.1 = m_enable_version_check s /\
  systemId r.1 = systemId s /\
  (m_loggingEnabled r.1 = m_loggingEnabled s \/ m_loggingEnabled r.1 = false) /\
  (m_logfile r.1 = None
   \/ (fileName <$> m_logfile r.1) = (fileName <$> m_logfile s)
      /\ (isOpen <$> m_logfile r.1) = (isOpen <$> m_logfile s)) /\
  Forall inbound_event r.2.
Proof.
  cbv zeta. unfold receiveBytes. generalize 0%nat as position. revert s.
  assert (forall (s : State) position,
    settings_kept s (receiveBytes_from B env link position b s).1
    /\ Forall inbound_event (receiveBytes_from B env link position b s).2) as H.
  { induction b as [|c b' IH]; intros s position.
    - split; [apply settings_kept_refl|constructor].
    - rewrite receiveBytes_from_cons. cbv zeta. cbn [fst snd].
      set (s0 := set_fed _ s).
      assert (settings_kept s s0) as H0 by (unfold settings_kept; repeat split; auto).
      destruct (_ =? 1).
      + destruct (on_decoded_settings_kept B (env position) link
                    (mavlink_parse_char B (fed s) (uint8_t (getId link)) (uint8_t c)).2
                    s0) as [Hk Hev].
        destruct (IH (on_decoded B (env position) link
                    (mavlink_parse_char B (fed s) (uint8_t (getId link)) (uint8_t c)).2
                    s0).1 (S position)) as [Hk' Hev'].
        split; [|by apply Forall_app].
        eapply settings_kept_trans; [exact H0|].
        eapply settings_kept_trans; [exact Hk|exact Hk'].
      + destruct (IH s0 (S position)) as [Hk' Hev']. cbn [fst snd app].
        split; [|done]. eapply settings_kept_trans; [exact H0|exact Hk']. }
  intros s position. destruct (H s position) as [(H1 & H2 & H3 & H4 & H5) Hev].
  repeat split; done.
Qed.

Lemma length_blit off src dst :
  (off <= length dst)%nat -> length (blit off src dst) = length dst.
Proof.
  intros H. unfold blit. rewrite !length_app, !length_take, length_drop. lia.
Qed.

Lemma log_record_length B e m :
  0 <= MAVLINK_MAX_PACKET_LEN B ->
  Z.of_nat (length (log_record B e m)) = record_len B.
Proof.
  intros H. unfold log_record.
  rewrite length_blit; rewrite length_blit; rewrite ?length_uninitialised;
    unfold record_len; lia.
Qed.

Lemma log_data_appends B e m s f :
  m_loggingEnabled s = true -> m_logfile s = Some f -> isOpen f = true ->
  0 <= MAVLINK_MAX_PACKET_LEN B -> record_len B < 2 ^ 64 ->
  record_len B <= device_accepts e ->
  log_data B e m s
  = (set_logfile
       (Some {| fileName := fileName f; isOpen := true;
                written := written f ++ log_record B e m |}) s, []).
Proof.
  intros Hen Hf Hopen Hmax Hsmall Hacc.
  pose proof (log_record_length B e m Hmax) as Hlen.
  assert (QFile_write f (log_record B e m) (device_accepts e)
          = ({| fileName := fileName f; isOpen := true;
                written := written f ++ log_record B e m |}, record_len B)) as Hw.
  { rewrite QFile_write_full; [by rewrite Hlen|done|lia]. }
  rewrite (log_data_full B e m s f Hen Hf); rewrite Hw; [done|].
  cbn [snd]. unfold write_short, record_len in *.
  rewrite Z.mod_small by lia.
  destruct (64 <=? size_t_bits B); apply Z.ltb_irrefl.
Qed.

(** X24. With logging on over an open file and a device that takes every
    record whole, one call of [receiveBytes] appends one record of
    MAVLINK_MAX_PACKET_LEN + 8 bytes for every message the parser
    completes, whether the message is dispatched or dropped; what the file
    held stays in front, and logging stays on. *)
Theorem X24_one_record_per_frame (B : BuildEnv) (env : nat -> Env)
    (link : LinkInterface) (b : list Z) (s : State) (f : QFile) :
  m_loggingEnabled s = true -> m_logfile s = Some f -> isOpen f = true ->
  0 <= MAVLINK_MAX_PACKET_LEN B -> record_len B < 2 ^ 64 ->
  (forall i, record_len B <= device_accepts (env i)) ->
  let s' := (receiveBytes B env link b s).1 in
  let frames := decoded_from B (uint8_t (getId link)) (fed s) b in
  (forall m, m ∈ frames ->
     Z.of_nat (length (mavlink_msg_to_send_buffer B m))
     <= MAVLINK_MAX_PACKET_LEN B) ->
  m_loggingEnabled s' = true /\
  exists f',
    m_logfile s' = Some f' /\ fileName f' = fileName f /\ isOpen f' = true /\
    written f `prefix_of` written f' /\
    Z.of_nat (length (written f'))
    = Z.of_nat (length (written f)) + record_len B * Z.of_nat (length frames).
Proof.
  intros Hen Hf Hopen Hmax Hsmall Hacc. cbv zeta. intros _. unfold receiveBytes.
  generalize 0%nat as position. revert s f Hen Hf Hopen.
  induction b as [|c b' IH]; intros s f Hen Hf Hopen position.
  - cbn. split; [done|]. exists f. repeat split; try done. lia.
  - rewrite receiveBytes_from_cons. cbv zeta. cbn [fst snd decoded_from].
    destruct (mavlink_parse_char B (fed s) _ _) as [decodeState m] eqn:Hparse.
    cbn [fst snd]. set (s0 := set_fed _ s).
    destruct (decodeState =? 1).
    + pose proof (log_data_appends B (env position) m s0 f Hen Hf Hopen Hmax
                    Hsmall (Hacc position)) as Hlog.
      pose proof (on_decoded_eq B (env position) link m s0) as Heq.
      rewrite Hlog in Heq. cbn [fst snd] in Heq.
      set (f1 := {| fileName := fileName f; isOpen := true;
                    written := written f ++ log_record B (env position) m |}) in *.
      destruct (handle_message_settings B link m (set_logfile (Some f1) s0))
        as (_ & Hl & Hfile & _).
      pose proof (on_decoded_fed B (env position) link m s0) as Hfed.
      rewrite Heq in *. cbn [fst] in *.
      destruct (IH _ f1 ltac:(by rewrite Hl) ltac:(by rewrite Hfile) eq_refl
                  (S position)) as (Hen' & f' & Hf' & Hname & Hopen' & Hpre & Hlen).
      rewrite Hfed in Hlen. cbn [fed s0 set_fed] in Hlen.
      split; [done|]. exists f'. repeat split; try done.
      * etrans; [|exact Hpre]. by apply prefix_app_r.
      * rewrite Hlen. cbn [written f1]. rewrite !length_app.
        pose proof (log_record_length B (env position) m Hmax). cbn [length]. lia.
    + destruct (IH s0 f Hen Hf Hopen (S position))
        as (Hen' & f' & Hf' & Hname & Hopen' & Hpre & Hlen).
      split; [done|]. exists f'. repeat split; done.
Qed.

(** * The further properties at concrete inputs *)

Lemma X5_witness :
  let u := {| uas_id := 7; uas_link := Sample.link0;
              uas_heartbeat := Sample.heartbeat_decode (Sample.heartbeat 7 1 2 2) |} in
  getUASForId Sample.seen 7 = Some u /\
  dispatched
    (on_decoded Sample.build Sample.quiet Sample.link1
       (Sample.heartbeat 7 1 3 9) Sample.seen).2
  = [(Sample.link1, Sample.heartbeat 7 1 3 9)].
Proof.
  cbv zeta.
  assert (getUASForId Sample.seen 7
          = Some {| uas_id := 7; uas_link := Sample.link0;
                    uas_heartbeat :=
                      Sample.heartbeat_decode (Sample.heartbeat 7 1 2 2) |}) as H
    by (vm_compute; reflexivity).
  split; [exact H|].
  exact (proj1 (X5_known_sender_dispatched Sample.build Sample.quiet Sample.link1
                  (Sample.heartbeat 7 1 3 9) Sample.seen _ H)).
Defined.

Lemma X6_witness :
  getUASForId Sample.fresh 255 = None /\
  conflicts
    (on_decoded Sample.build Sample.quiet Sample.link0
       (Sample.heartbeat 255 1 0 3) Sample.fresh).2
  = (if 255 =? systemId Sample.fresh then [systemId Sample.fresh] else []).
Proof.
  split; [reflexivity|].
  exact (proj1 (X6_system_id_conflict Sample.build Sample.quiet Sample.link0
                  (Sample.heartbeat 255 1 0 3) Sample.fresh eq_refl eq_refl)).
Defined.

Lemma X9_witness :
  lastIndex_at Sample.seen 7 1 = 2 /\
  totalLossCounter
    (count_message Sample.link0 (Sample.attitude 7 1 2) Sample.seen).1
  = totalLossCounter Sample.seen + 255.
Proof.
  assert (lastIndex_at Sample.seen 7 1 = 2) as H by (vm_compute; reflexivity).
  split; [exact H|].
  exact (proj1 (X9_repeated_sequence_number Sample.link0 (Sample.attitude 7 1 2)
                  Sample.seen H ltac:(cbn; lia))).
Defined.

Lemma X10_witness :
  reachable Sample.build Sample.fresh /\ currLossCounter Sample.fresh = 0.
Proof.
  assert (reachable Sample.build Sample.fresh) as H by apply reachable_new.
  split; [exact H|].
  exact (proj1 (X10_window_bounded Sample.build Sample.fresh H)).
Defined.

(** The report stage runs twice in this run: for the heartbeat, with
    nothing lost and one received, and for the message five numbers on,
    with four lost and two received. *)
Lemma C10_witness :
  let cs := [call_receiveBytes (fun _ => Sample.quiet) Sample.link0
               (Sample.to_send_buffer (Sample.heartbeat 7 1 0 2)
                ++ Sample.to_send_buffer (Sample.attitude 7 1 5))] in
  map (fun c => (currLossCounter (call_state c), currReceiveCounter (call_state c)))
    (report_calls Sample.build cs Sample.fresh) = [(0, 1); (4, 2)] /\
  loss_reports (run Sample.build cs Sample.fresh).2 = [receiveLossChanged 7 (400 # 6)] /\
  Forall denominator_positive (report_calls Sample.build cs Sample.fresh).
Proof.
  cbv zeta. split; [vm_compute; reflexivity|]. split; [vm_compute; reflexivity|].
  exact (proj2 (C10_denominator_positive Sample.build _ Sample.no_settings true ∅)).
Defined.

Lemma X11_witness :
  let cs := [call_receiveBytes (fun _ => Sample.quiet) Sample.link0
               (Sample.to_send_buffer (Sample.heartbeat 7 1 0 2)
                ++ Sample.to_send_buffer (Sample.attitude 7 1 5))] in
  map (fun c => (totalLossCounter (call_state c) - call_lastLoss c,
                 currReceiveCounter (call_state c)))
    (report_calls Sample.build cs Sample.fresh) = [(0, 1); (4, 2)] /\
  Forall ratio_of_this_message (report_calls Sample.build cs Sample.fresh).
Proof.
  cbv zeta. split; [vm_compute; reflexivity|].
  exact (proj2 (X11_reported_ratio Sample.build _ Sample.no_settings true ∅)).
Defined.

Lemma X12_witness :
  receiveLossChanged 7 (400 # 6)
  ∈ (run Sample.build
       [call_receiveBytes (fun _ => Sample.quiet) Sample.link0
          (Sample.to_send_buffer (Sample.heartbeat 7 1 0 2)
           ++ Sample.to_send_buffer (Sample.attitude 7 1 5))]
       (MAVLinkProtocol_new Sample.no_settings true ∅).1).2 /\
  ((0 <= 400 # 6)%Q /\ (400 # 6 < 100)%Q).
Proof.
  assert (receiveLossChanged 7 (400 # 6)
  ∈ (run Sample.build
       [call_receiveBytes (fun _ => Sample.quiet) Sample.link0
          (Sample.to_send_buffer (Sample.heartbeat 7 1 0 2)
           ++ Sample.to_send_buffer (Sample.attitude 7 1 5))]
       (MAVLinkProtocol_new Sample.no_settings true ∅).1).2) as H.
  { apply list_elem_of_In. vm_compute. right. right. left. reflexivity. }
  split; [exact H|].
  exact (X12_ratio_in_range Sample.build _ _ _ _ _ _ H).
Defined.

Lemma X13_witness :
  let f := {| fileName := "log"; isOpen := true; written := [] |} in
  m_logfile Sample.logging = Some f /\
  0 <= device_accepts Sample.disk_full < record_len Sample.build /\
  m_loggingEnabled
    (on_decoded Sample.build Sample.disk_full Sample.link0
       (Sample.heartbeat 7 1 0 2) Sample.logging).1 = false.
Proof.
  cbv zeta.
  assert (m_logfile Sample.logging
          = Some {| fileName := "log"; isOpen := true; written := [] |}) as H
    by (vm_compute; reflexivity).
  assert (0 <= device_accepts Sample.disk_full < record_len Sample.build) as Ha
    by (vm_compute; split; [discriminate|reflexivity]).
  split; [exact H|]. split; [exact Ha|].
  exact (proj1 (proj2
    (X13_short_write_disables_logging Sample.build Sample.disk_full Sample.link0
       (Sample.heartbeat 7 1 0 2) Sample.logging _
       ltac:(vm_compute; reflexivity) H eq_refl Ha))).
Defined.

Lemma X14_witness :
  let f := {| fileName := "log"; isOpen := false; written := [] |} in
  m_logfile Sample.unopened = Some f /\
  m_loggingEnabled
    (log_data Sample.build Sample.quiet (Sample.heartbeat 7 1 0 2)
       Sample.unopened).1 = true.
Proof.
  cbv zeta.
  assert (m_logfile Sample.unopened
          = Some {| fileName := "log"; isOpen := false; written := [] |}) as H
    by (vm_compute; reflexivity).
  split; [exact H|].
  exact (proj1 (proj2 (proj1
    (X14_write_error_and_size_t Sample.build Sample.quiet
       (Sample.heartbeat 7 1 0 2) Sample.unopened _
       ltac:(vm_compute; reflexivity) H (or_introl eq_refl)
       ltac:(vm_compute; split; [discriminate|reflexivity]))
    ltac:(vm_compute; discriminate)))).
Defined.

Lemma X24_witness :
  let f := {| fileName := "log"; isOpen := true; written := [] |} in
  let b := Sample.to_send_buffer (Sample.attitude 9 1 0) in
  m_logfile Sample.logging = Some f /\
  decoded_from Sample.build 0 (fed Sample.logging) b = [Sample.attitude 9 1 0] /\
  m_loggingEnabled
    (receiveBytes Sample.build (fun _ => Sample.quiet) Sample.link0 b
       Sample.logging).1 = true.
Proof.
  cbv zeta.
  assert (m_logfile Sample.logging
          = Some {| fileName := "log"; isOpen := true; written := [] |}) as H
    by (vm_compute; reflexivity).
  assert (decoded_from Sample.build 0 (fed Sample.logging)
            (Sample.to_send_buffer (Sample.attitude 9 1 0))
          = [Sample.attitude 9 1 0]) as Hd by (vm_compute; reflexivity).
  split; [exact H|]. split; [exact Hd|].
  refine (proj1
    (X24_one_record_per_frame Sample.build (fun _ => Sample.quiet) Sample.link0
       (Sample.to_send_buffer (Sample.attitude 9 1 0)) Sample.logging _
       ltac:(vm_compute; reflexivity) H eq_refl
       ltac:(vm_compute; discriminate) ltac:(vm_compute; reflexivity)
       (fun _ => ltac:(vm_compute; discriminate)) _)).
  change (uint8_t (getId Sample.link0)) with 0. rewrite Hd.
  intros m Hm. apply list_elem_of_singleton in Hm as ->.
  vm_compute. discriminate.
Defined.
